(** * DNSimple IP updater: a shallow embedding of [update-dnsimple-dns.py]

    The development follows the script top down: Python's [str] primitives
    that the script relies on, hostname validation, local address discovery,
    the DNSimple zone-record client seen as an interface, and the
    reconciliation loop.  Theorems come after all definitions. *)

From Stdlib Require Import NArith Ascii String Lia.
From stdpp Require Import base option list gmap.

Local Open Scope N_scope.

(** ** Python strings

    A Python [str] is a sequence of Unicode code points; [len] counts code
    points.  Code points are kept as [N]. *)

Definition str : Type := list N.

(** ASCII literals of the script, as code point sequences. *)
Definition py (s : string) : str := N_of_ascii <$> list_ascii_of_string s.

Module Py.

(** [s.startswith(p)] *)
Fixpoint startswith (s p : str) : bool :=
  match p, s with
  | [], _ => true
  | _ :: _, [] => false
  | a :: p', b :: s' => (a =? b) && startswith s' p'
  end.

(** [s.endswith(p)] *)
Definition endswith (s p : str) : bool := startswith (reverse s) (reverse p).

(** [sub in s] *)
Fixpoint contains (sub s : str) : bool :=
  startswith s sub ||
  match s with
  | [] => false
  | _ :: s' => contains sub s'
  end.

(** [s.split(sep)] for a separator of one character.  The result is never
    empty: [''.split('.')] is [['']]. *)
Fixpoint split (sep : N) (s : str) : list str :=
  match s with
  | [] => [[]]
  | c :: s' =>
      if c =? sep then [] :: split sep s'
      else match split sep s' with
           | [] => [[c]]
           | part :: parts => (c :: part) :: parts
           end
  end.

(** [sep.join(parts)] *)
Fixpoint join (sep : str) (parts : list str) : str :=
  match parts with
  | [] => []
  | [part] => part
  | part :: parts' => part ++ sep ++ join sep parts'
  end.

(** [xs[-n:]] and [xs[:-n]] for [n > 0]: Python clamps the start of the
    slice at the beginning of the list. *)
Definition slice_last {A} (n : nat) (xs : list A) : list A :=
  drop (length xs - n) xs.
Definition slice_but_last {A} (n : nat) (xs : list A) : list A :=
  take (length xs - n) xs.

(** [c.isspace()]: the code points Python treats as whitespace in
    [str.split()] and [str.strip()]. *)
Definition isspace (c : N) : bool :=
  ((9 <=? c) && (c <=? 13)) || ((28 <=? c) && (c <=? 32)) ||
  (c =? 133) || (c =? 160) || (c =? 5760) ||
  ((8192 <=? c) && (c <=? 8202)) || (c =? 8232) || (c =? 8233) ||
  (c =? 8239) || (c =? 8287) || (c =? 12288).

(** [s.split()]: split on runs of whitespace, no empty tokens. *)
Fixpoint split_ws_aux (cur : str) (s : str) : list str :=
  match s with
  | [] => match cur with [] => [] | _ => [reverse cur] end
  | c :: s' =>
      if isspace c
      then match cur with
           | [] => split_ws_aux [] s'
           | _ => reverse cur :: split_ws_aux [] s'
           end
      else split_ws_aux (c :: cur) s'
  end.
Definition split_ws (s : str) : list str := split_ws_aux [] s.

(** [s.strip()] *)
Fixpoint lstrip (s : str) : str :=
  match s with
  | [] => []
  | c :: s' => if isspace c then lstrip s' else s
  end.
Definition strip (s : str) : str := reverse (lstrip (reverse (lstrip s))).

(** [xs.index(x)]: position of the first element equal to [x]; [None]
    stands for the [ValueError] Python raises when there is none. *)
Fixpoint index (x : str) (xs : list str) : option nat :=
  match xs with
  | [] => None
  | y :: xs' => if bool_decide (y = x) then Some 0%nat
                else S <$> index x xs'
  end.

End Py.

(** ** Character classes

    [str.isalnum] follows the Unicode database.  The classification is
    written out for Basic Latin and Latin-1 Supplement (U+0000 to U+00FF);
    for the code points above, it is left to the [UnicodeData] in scope, so
    that every result below holds whatever the database says there. *)

Class UnicodeData := { isalnum_above_latin1 : N -> bool }.

Definition ascii_alnum (c : N) : bool :=
  ((48 <=? c) && (c <=? 57)) || ((65 <=? c) && (c <=? 90)) ||
  ((97 <=? c) && (c <=? 122)).

Definition latin1_alnum (c : N) : bool :=
  (c =? 170) || (c =? 178) || (c =? 179) || (c =? 181) || (c =? 185) ||
  (c =? 186) || ((188 <=? c) && (c <=? 190)) ||
  ((192 <=? c) && (c <=? 214)) || ((216 <=? c) && (c <=? 246)) ||
  ((248 <=? c) && (c <=? 255)).

Definition isalnum `{UnicodeData} (c : N) : bool :=
  if c <? 128 then ascii_alnum c
  else if c <? 256 then latin1_alnum c
  else isalnum_above_latin1 c.

Definition hyphen : N := 45.
Definition dot : N := 46.

(** ** Hostname validation *)

Section Validation.
Context `{UnicodeData}.

(** The checks of the loop body on a part that is not the wildcard:
    [part[0].isalnum()], [part[-1].isalnum()] and the [all(...)]. *)
Definition regular_part_ok (part : str) : bool :=
  match part, last part with
  | c0 :: _, Some cl =>
      if negb (isalnum c0) || negb (isalnum cl) then false
      else forallb (fun c => isalnum c || (c =? hyphen)) part
  | _, _ => false
  end.

(** [for i, part in enumerate(parts)], from index [i] on. *)
Fixpoint validate_parts (i : nat) (parts : list str) : bool :=
  match parts with
  | [] => true
  | part :: parts' =>
      if bool_decide (part = []) || (63 <? length part)%nat then false
      else if bool_decide (part = py "*")
      then (if negb (i =? 0)%nat then false
            else validate_parts (S i) parts')
      else if negb (regular_part_ok part) then false
      else validate_parts (S i) parts'
  end.

Definition validate_hostname (hostname : str) : bool :=
  if bool_decide (hostname = []) || (253 <? length hostname)%nat then false
  else if Py.startswith hostname (py ".") || Py.endswith hostname (py ".")
          || Py.contains (py "..") hostname then false
  else
    let parts := Py.split dot hostname in
    if (length parts <? 2)%nat then false
    else validate_parts 0 parts.

End Validation.

(** The instance used for closed examples: nothing above U+00FF counts as
    alphanumeric.  The examples only use code points below U+0100. *)
Definition latin1_only : UnicodeData := {| isalnum_above_latin1 := fun _ => false |}.

(** ** Local address discovery

    The script shells out to [ip] and [ifconfig].  A [platform] answers a
    command with its standard output, or with [None] when
    [subprocess.run(..., check=True)] raises (the binary is missing, the exit
    status is not zero, the output cannot be decoded). *)

Inductive command : Type :=
| IpRouteGet    (* ip route get 8.8.8.8 *)
| IpAddrShow    (* ip addr show *)
| Ifconfig.     (* ifconfig *)

Definition platform : Type := command -> option str.

Definition newline : N := 10.
Definition slash : N := 47.
Definition colon : N := 58.

(** [not ip.startswith('127.') and not ip.startswith('169.254.')] *)
Definition not_loopback_or_link_local (ip : str) : bool :=
  negb (Py.startswith ip (py "127.")) && negb (Py.startswith ip (py "169.254.")).

(** Result of scanning the output of [ip route get]: an address, nothing, or
    the [ValueError] of [parts.index('src')]. *)
Inductive route_scan : Type :=
| RouteFound (ip : str)
| RouteNothing
| RouteValueError.

Fixpoint scan_route (lines : list str) : route_scan :=
  match lines with
  | [] => RouteNothing
  | line :: lines' =>
      if Py.contains (py "src") line then
        let parts := Py.split_ws line in
        match Py.index (py "src") parts with
        | None => RouteValueError
        | Some src_index =>
            match parts !! (src_index + 1)%nat with
            | Some ip =>
                if not_loopback_or_link_local ip then RouteFound ip
                else scan_route lines'
            | None => scan_route lines'
            end
        end
      else scan_route lines'
  end.

(** The loop over the lines of [ip addr show]. *)
Fixpoint scan_addr (lines : list str) : option str :=
  match lines with
  | [] => None
  | line0 :: lines' =>
      let line := Py.strip line0 in
      if Py.startswith line (py "inet ") && Py.contains (py "scope global") line
      then
        match Py.split_ws line with
        | _ :: p1 :: _ =>
            let ip := default [] (head (Py.split slash p1)) in
            if not_loopback_or_link_local ip then Some ip
            else scan_addr lines'
        | _ => scan_addr lines'
        end
      else scan_addr lines'
  end.

(** The loop over the lines of [ifconfig], with [current_interface]. *)
Fixpoint scan_ifconfig (current_interface : option str) (lines : list str)
  : option str :=
  match lines with
  | [] => None
  | line0 :: lines' =>
      let line := Py.strip line0 in
      if Py.startswith line (py "en")
      then scan_ifconfig (head (Py.split colon line)) lines'
      else
        let on_ethernet :=
          match current_interface with
          | Some (c :: i) => Py.startswith (c :: i) (py "en")
          | _ => false
          end in
        if Py.startswith line (py "inet ") && on_ethernet
        then
          match Py.split_ws line with
          | _ :: ip :: _ =>
              if not_loopback_or_link_local ip then Some ip
              else scan_ifconfig current_interface lines'
          | _ => scan_ifconfig current_interface lines'
          end
        else scan_ifconfig current_interface lines'
  end.

(** Each procedure returns its result with the commands it ran, in order.
    Any exception ends [get_ip_linux] with [None]: both [subprocess.run]
    calls and the parsing sit in one [try] block. *)
Definition get_ip_linux (os : platform) : option str * list command :=
  match os IpRouteGet with
  | None => (None, [IpRouteGet])
  | Some stdout =>
      match scan_route (Py.split newline stdout) with
      | RouteFound ip => (Some ip, [IpRouteGet])
      | RouteValueError => (None, [IpRouteGet])
      | RouteNothing =>
          match os IpAddrShow with
          | None => (None, [IpRouteGet; IpAddrShow])
          | Some stdout' =>
              (scan_addr (Py.split newline stdout'), [IpRouteGet; IpAddrShow])
          end
      end
  end.

Definition get_ip_macos (os : platform) : option str * list command :=
  match os Ifconfig with
  | None => (None, [Ifconfig])
  | Some stdout => (scan_ifconfig None (Py.split newline stdout), [Ifconfig])
  end.

(** Truth value of an [Optional[str]]: [None] and [''] are false. *)
Definition truthy (s : option str) : bool :=
  match s with
  | Some (_ :: _) => true
  | _ => false
  end.

(** [ip = get_ip_linux() or get_ip_macos()]; [if ip: return ip]. *)
Definition get_ethernet_ip (os : platform) : option str * list command :=
  let '(linux, ran) := get_ip_linux os in
  if truthy linux then (linux, ran)
  else
    let '(macos, ran') := get_ip_macos os in
    if truthy macos then (macos, ran ++ ran') else (None, ran ++ ran').

(** ** Address literals

    [validate_ip_address] asks Python's [ipaddress.ip_address] whether the
    string parses.  The library is not part of the repository; its parsing
    rules are written out here after CPython's [ipaddress] module. *)

Module IpAddress.

Definition is_ascii_digit (c : N) : bool := (48 <=? c) && (c <=? 57).

Definition is_hex_digit (c : N) : bool :=
  is_ascii_digit c || ((97 <=? c) && (c <=? 102)) || ((65 <=? c) && (c <=? 70)).

(** [int(s, 10)] on a string of ASCII digits. *)
Definition int10 (s : str) : N := foldl (fun acc c => 10 * acc + (c - 48)) 0 s.

(** [_parse_octet] *)
Definition parse_octet (octet_str : str) : option N :=
  if bool_decide (octet_str = []) then None
  else if negb (forallb is_ascii_digit octet_str) then None
  else if (3 <? length octet_str)%nat then None
  else if negb (bool_decide (octet_str = py "0"))
          && bool_decide (head octet_str = Some 48) then None
  else
    let octet_int := int10 octet_str in
    if 255 <? octet_int then None else Some octet_int.

(** [IPv4Address(s)._ip], or [None] for [AddressValueError]. *)
Definition ipv4 (addr_str : str) : option N :=
  if Py.contains (py "/") addr_str then None
  else if bool_decide (addr_str = []) then None
  else
    match Py.split dot addr_str with
    | [a; b; c; d] =>
        a' ← parse_octet a; b' ← parse_octet b;
        c' ← parse_octet c; d' ← parse_octet d;
        Some (((a' * 256 + b') * 256 + c') * 256 + d')
    | _ => None
    end.

(** ['%x' % n] for [n < 65536] *)
Definition hex_digit (d : N) : N := if d <? 10 then 48 + d else 87 + d.
Fixpoint drop_zeros (ds : list N) : list N :=
  match ds with
  | 0 :: ds' => drop_zeros ds'
  | _ => ds
  end.
Definition hex16 (n : N) : str :=
  let ds := [n / 4096 mod 16; n / 256 mod 16; n / 16 mod 16; n mod 16] in
  match drop_zeros ds with
  | [] => py "0"
  | ds' => hex_digit <$> ds'
  end.

(** [_parse_hextet]: [int('', 16)] raises, so the empty string fails. *)
Definition parse_hextet (hextet_str : str) : bool :=
  forallb is_hex_digit hextet_str
  && negb (4 <? length hextet_str)%nat
  && negb (bool_decide (hextet_str = [])).

(** [_split_scope_id]: the part before ['%'], or [None] when the scope
    identifier is empty or holds another ['%']. *)
Definition percent : N := 37.
Definition split_scope_id (ip_str : str) : option str :=
  match Py.split percent ip_str with
  | [addr] => Some addr
  | [addr; scope_id] =>
      if bool_decide (scope_id = []) then None else Some addr
  | _ => None
  end.

(** The search for ['::'] among the inner parts: [None] when there are
    two, [Some None] when there is none. *)
Fixpoint find_skip (i : nat) (inner : list str) (skip_index : option nat)
  : option (option nat) :=
  match inner with
  | [] | [_] => Some skip_index
  | part :: inner' =>
      if bool_decide (part = []) then
        match skip_index with
        | Some _ => None
        | None => find_skip (S i) inner' (Some i)
        end
      else find_skip (S i) inner' skip_index
  end.

Definition is_empty (s : option str) : bool := bool_decide (s = Some []).

(** [IPv6Address._ip_int_from_string], keeping only whether it succeeds. *)
Definition ipv6_parts (ip_str : str) : bool :=
  if bool_decide (ip_str = []) then false
  else
    let parts := Py.split colon ip_str in
    if (length parts <? 3)%nat then false
    else
      let parts' :=
        match last parts with
        | Some lst =>
            if Py.contains (py ".") lst
            then match ipv4 lst with
                 | Some ipv4_int =>
                     Some (Py.slice_but_last 1 parts ++
                           [hex16 (ipv4_int / 65536 mod 65536);
                            hex16 (ipv4_int mod 65536)])
                 | None => None
                 end
            else Some parts
        | None => Some parts
        end in
      match parts' with
      | None => false
      | Some parts =>
          if (9 <? length parts)%nat then false
          else
            match find_skip 1 (tail parts) None with
            | None => false
            | Some (Some skip_index) =>
                let parts_hi := skip_index in
                let parts_lo := (length parts - skip_index - 1)%nat in
                let lead := is_empty (head parts) in
                let trail := is_empty (last parts) in
                let parts_hi := if lead then (parts_hi - 1)%nat else parts_hi in
                let parts_lo := if trail then (parts_lo - 1)%nat else parts_lo in
                if lead && negb (parts_hi =? 0)%nat then false
                else if trail && negb (parts_lo =? 0)%nat then false
                else if (8 - (parts_hi + parts_lo) <? 1)%nat then false
                else forallb parse_hextet (take parts_hi parts)
                     && forallb parse_hextet (Py.slice_last parts_lo parts)
            | Some None =>
                if negb (length parts =? 8)%nat then false
                else if is_empty (head parts) then false
                else if is_empty (last parts) then false
                else forallb parse_hextet parts
            end
      end.

Definition ipv6 (addr_str : str) : bool :=
  if Py.contains (py "/") addr_str then false
  else match split_scope_id addr_str with
       | Some addr => ipv6_parts addr
       | None => false
       end.

(** [ipaddress.ip_address(ip)] returns ([true]) or raises [ValueError]. *)
Definition ip_address (address : str) : bool :=
  match ipv4 address with
  | Some _ => true
  | None => ipv6 address
  end.

End IpAddress.

Definition validate_ip_address (ip : str) : bool := IpAddress.ip_address ip.

(** ** The DNSimple zone-record client

    The script reaches DNSimple through [client.zones].  Which method name it
    finds with [hasattr] ([list_records], [records], [all_records] or
    [list_zone_records], and so on) does not change the operation performed,
    so the client is an interface with one operation per kind of call.  Each
    operation takes the state of the remote service to its answer and the new
    state; [None] stands for a raised exception. *)

Record record : Type := Record_ {
  r_id : N;
  r_type : str;
  r_name : str;
  r_content : str;
  r_ttl : N
}.

Class ZoneRecordStore (S : Type) : Type := {
  list_records : N -> str -> S -> option (list record) * S;
  (** account, zone, then the payload: name, type, content, ttl *)
  create_record : N -> str -> str -> str -> str -> N -> S -> option record * S;
  (** account, zone, record id, then the payload: content, ttl *)
  update_record : N -> str -> N -> str -> N -> S -> option record * S;
  delete_record : N -> str -> N -> S -> option unit * S
}.

(** The calls made on the client, as they are made. *)
Inductive call : Type :=
| ListRecords (account_id : N) (zone_name : str)
| CreateRecord (account_id : N) (zone_name name type content : str) (ttl : N)
| UpdateRecord (account_id : N) (zone_name : str) (record_id : N)
               (content : str) (ttl : N)
| DeleteRecord (account_id : N) (zone_name : str) (record_id : N).

(** Computations over the service state that log their calls. *)
Definition M (S A : Type) : Type := S -> A * S * list call.

Definition ret {S A} (a : A) : M S A := fun s => (a, s, []).

Definition bind {S A B} (c : M S A) (k : A -> M S B) : M S B :=
  fun s =>
    let '(a, s1, log1) := c s in
    let '(b, s2, log2) := k a s1 in
    (b, s2, log1 ++ log2).

(** One call on the client: the operation and its entry in the log. *)
Definition invoke {S A} (op : S -> A * S) (c : call) : M S A :=
  fun s => let '(a, s') := op s in (a, s', [c]).

(** The result of a computation together with the calls it made. *)
Definition listen {S A} (c : M S A) : M S (A * list call) :=
  fun s => let '(a, s', log) := c s in ((a, log), s', log).

Notation "'let*' x ':=' c 'in' k" := (bind c (fun x => k))
  (at level 10, x pattern, c at level 100, k at level 200).

(** ** The reconciliation engine *)

(** What became of one hostname.  [process_hostname] returns [True] for the
    first three and [False] for a failure; the constructors follow its log
    messages. *)
Inductive failure : Type :=
| InvalidHostname | ZoneReadError | UpdateError | CreateError.

Inductive outcome : Type :=
| Unchanged | Updated | Created | Failed (reason : failure).

Definition succeeded (o : outcome) : bool :=
  match o with
  | Failed _ => false
  | _ => true
  end.

(** [zone_name = '.'.join(parts[-2:])] *)
Definition zone_name (parts : list str) : str :=
  Py.join (py ".") (Py.slice_last 2 parts).

(** [record_name]: ['.'.join(parts[:-2])] when [len(parts) > 2], else [''] *)
Definition record_name (parts : list str) : str :=
  if (2 <? length parts)%nat then Py.join (py ".") (Py.slice_but_last 2 parts)
  else [].

(** The search loop of [process_hostname]: the first record of type ['A']
    with the wanted name. *)
Fixpoint existing_record (name : str) (existing_records : list record)
  : option record :=
  match existing_records with
  | [] => None
  | r :: records' =>
      if bool_decide (r_type r = py "A") && bool_decide (r_name r = name)
      then Some r
      else existing_record name records'
  end.

Section Engine.
Context `{UnicodeData} {S : Type} `{ZoneRecordStore S}.

Definition get_existing_dns_records (account_id : N) (zone : str)
  : M S (option (list record)) :=
  invoke (list_records account_id zone) (ListRecords account_id zone).

(** [True] or [False] *)
Definition delete_dns_record (account_id : N) (zone : str) (record_id : N)
  : M S bool :=
  let* r := invoke (delete_record account_id zone record_id)
                   (DeleteRecord account_id zone record_id) in
  ret (bool_decide (is_Some r)).

(** [response.data], or [None] for the [False] of the error paths. *)
Definition create_dns_record (account_id : N) (zone name ip : str)
  : M S (option record) :=
  if negb (validate_ip_address ip) then ret None
  else invoke (create_record account_id zone name (py "A") ip 300)
              (CreateRecord account_id zone name (py "A") ip 300).

Definition update_dns_record (account_id : N) (zone : str) (record_id : N)
    (ip : str) : M S (option record) :=
  if negb (validate_ip_address ip) then ret None
  else invoke (update_record account_id zone record_id ip 300)
              (UpdateRecord account_id zone record_id ip 300).

Definition process_hostname (account_id : N) (hostname local_ip : str)
  : M S outcome :=
  if negb (validate_hostname hostname) then ret (Failed InvalidHostname)
  else
    let parts := Py.split dot hostname in
    if (length parts <? 2)%nat then ret (Failed InvalidHostname)
    else
      let zone := zone_name parts in
      let name := record_name parts in
      let* existing_records := get_existing_dns_records account_id zone in
      match existing_records with
      | None => ret (Failed ZoneReadError)
      | Some records =>
          match existing_record name records with
          | Some r =>
              if bool_decide (r_content r = local_ip) then ret Unchanged
              else
                let* updated :=
                  update_dns_record account_id zone (r_id r) local_ip in
                ret (match updated with
                     | Some _ => Updated
                     | None => Failed UpdateError
                     end)
          | None =>
              let* created :=
                create_dns_record account_id zone name local_ip in
              ret (match created with
                   | Some _ => Created
                   | None => Failed CreateError
                   end)
          end
      end.

(** The loop of [update_dns_records] over the hostnames that remain.  It
    carries [success_count]; next to it, the loop keeps for each hostname
    its outcome and the calls made while it was processed. *)
Fixpoint process_hostnames (account_id : N) (local_ip : str)
    (hostnames : list str) (success_count : nat)
  : M S (nat * list (outcome * list call)) :=
  match hostnames with
  | [] => ret (success_count, [])
  | hostname :: hostnames' =>
      let* report :=
        listen (process_hostname account_id hostname local_ip) in
      let* (count, reports) :=
        process_hostnames account_id local_ip hostnames'
          (if succeeded report.1 then Datatypes.S success_count
           else success_count) in
      ret (count, report :: reports)
  end.

(** The summary at the end of [update_dns_records]. *)
Definition summary (success_count total_count : nat) : bool :=
  if (success_count =? total_count)%nat then true
  else if (0 <? success_count)%nat then true
  else false.

(** [update_dns_records], taking what [get_dnsimple_client],
    [get_account_id], [parse_hostnames] and [get_ethernet_ip] returned.
    [client] only says whether a client was obtained. *)
Definition update_dns_records (client : bool) (account_id : option N)
    (hostnames : list str) (local_ip : option str) : M S bool :=
  if negb client then ret false
  else match account_id with
  | None => ret false
  | Some account_id =>
      if bool_decide (hostnames = []) then ret false
      else if negb (truthy local_ip) then ret false
      else
        let local_ip := default [] local_ip in
        let* (success_count, _) :=
          process_hostnames account_id local_ip hostnames 0 in
        ret (summary success_count (length hostnames))
  end.

(** [sys.exit(0 if success else 1)]: the end of [main] in its default mode
    (neither [--help] nor [--dry-run]). *)
Definition exit_code (success : bool) : N := if success then 0 else 1.

Definition main (client : bool) (account_id : option N)
    (hostnames : list str) (local_ip : option str) : M S N :=
  let* success :=
    update_dns_records client account_id hostnames local_ip in
  ret (exit_code success).

End Engine.

(** ** A service that keeps what it is told

    The reference behaviour of the remote side: every zone of an account
    holds its records in a fixed order; a created record gets a fresh
    identifier and goes to the end; an update overwrites the fields of its
    payload on the record with the given identifier; a call fails only when
    the zone or the record does not exist. *)

Record service : Type := Service {
  zones : gmap (N * str) (list record);
  next_id : N
}.

Definition apply_update (record_id : N) (content : str) (ttl : N) (r : record)
  : record :=
  if bool_decide (r_id r = record_id)
  then {| r_id := r_id r; r_type := r_type r; r_name := r_name r;
          r_content := content; r_ttl := ttl |}
  else r.

Definition service_list (account_id : N) (zone : str) (s : service)
  : option (list record) * service :=
  (zones s !! (account_id, zone), s).

Definition service_create (account_id : N) (zone name type content : str)
    (ttl : N) (s : service) : option record * service :=
  match zones s !! (account_id, zone) with
  | Some records =>
      let r := {| r_id := next_id s; r_type := type; r_name := name;
                  r_content := content; r_ttl := ttl |} in
      (Some r, {| zones := <[(account_id, zone) := records ++ [r]]> (zones s);
                  next_id := next_id s + 1 |})
  | None => (None, s)
  end.

Definition service_update (account_id : N) (zone : str) (record_id : N)
    (content : str) (ttl : N) (s : service) : option record * service :=
  match zones s !! (account_id, zone) with
  | Some records =>
      match find (fun r => bool_decide (r_id r = record_id)) records with
      | Some r =>
          (Some (apply_update record_id content ttl r),
           {| zones := <[(account_id, zone) :=
                          apply_update record_id content ttl <$> records]>
                       (zones s);
              next_id := next_id s |})
      | None => (None, s)
      end
  | None => (None, s)
  end.

Definition service_delete (account_id : N) (zone : str) (record_id : N)
    (s : service) : option unit * service :=
  match zones s !! (account_id, zone) with
  | Some records =>
      match find (fun r => bool_decide (r_id r = record_id)) records with
      | Some _ =>
          (Some (),
           {| zones := <[(account_id, zone) :=
                          filter (fun r => r_id r <> record_id) records]>
                       (zones s);
              next_id := next_id s |})
      | None => (None, s)
      end
  | None => (None, s)
  end.

#[export] Instance service_store : ZoneRecordStore service := {|
  list_records := service_list;
  create_record := service_create;
  update_record := service_update;
  delete_record := service_delete
|}.

(** ** The hostname rules, in the words of the specification

    Stated without the functions of the script: the labels of a hostname are
    the dot-free pieces that give the hostname back when joined by dots. *)

Definition labels_of (h : str) (labels : list str) : Prop :=
  labels ≠ [] ∧ h = Py.join (py ".") labels ∧ Forall (λ l, dot ∉ l) labels.

Definition label_rules `{UnicodeData} (i : nat) (label : str) : Prop :=
  label ≠ [] ∧ (length label ≤ 63)%nat ∧
  (label = py "*" → i = 0%nat) ∧
  (label ≠ py "*" →
     (∃ c, head label = Some c ∧ isalnum c = true) ∧
     (∃ c, last label = Some c ∧ isalnum c = true) ∧
     (∀ c, c ∈ label → isalnum c = true ∨ c = hyphen)).

Definition hostname_rules `{UnicodeData} (h : str) : Prop :=
  h ≠ [] ∧ (length h ≤ 253)%nat ∧
  ¬ py "." `prefix_of` h ∧ ¬ py "." `suffix_of` h ∧
  (¬ ∃ a b, h = a ++ py ".." ++ b) ∧
  ∃ labels, labels_of h labels ∧ (2 ≤ length labels)%nat ∧
    ∀ i label, labels !! i = Some label → label_rules i label.

(** ['héllo.example.com'], with U+00E9 as its second character. *)
Definition hello_example_com : str := py "h" ++ [233] ++ py "llo.example.com".

(** A hostname of 253 characters: three labels of 63 and one of 61. *)
Definition hostname_253 : str :=
  replicate 63 97 ++ py "." ++ replicate 63 97 ++ py "." ++
  replicate 63 97 ++ py "." ++ replicate 61 97.

(** The first record of a listing that has type ['A'] and the given name,
    stated on the listing itself. *)
Definition address_record (name : str) (r : record) : Prop :=
  r_type r = py "A" ∧ r_name r = name.

Definition first_address_record (name : str) (records : list record)
    (r : record) : Prop :=
  ∃ before after,
    records = before ++ r :: after ∧ address_record name r ∧
    Forall (λ r', ¬ address_record name r') before.

(** The calls that reconciliation is meant to make. *)
Definition reconciliation_call (c : call) : Prop :=
  match c with
  | ListRecords _ _ | CreateRecord _ _ _ _ _ _ | UpdateRecord _ _ _ _ _ => True
  | DeleteRecord _ _ _ => False
  end.

(** Value, final state and log of a run. *)
Definition value {S A} (run : A * S * list call) : A := run.1.1.
Definition final {S A} (run : A * S * list call) : S := run.1.2.
Definition calls {S A} (run : A * S * list call) : list call := run.2.

(** Sample data: one zone with a stale record for [api]. *)
Definition api_record : record :=
  {| r_id := 7; r_type := py "A"; r_name := py "api";
     r_content := py "10.0.0.1"; r_ttl := 3600 |}.

Definition sample_service : service :=
  {| zones := {[ (1, py "example.com") := [api_record] ]}; next_id := 8 |}.

(** The service already holds the wanted address for a name: the zone
    exists and its first ['A'] record with that name has the address. *)
Definition current (account_id : N) (zone name ip : str) (s : service) : Prop :=
  ∃ records r,
    zones s !! (account_id, zone) = Some records ∧
    existing_record name records = Some r ∧ r_content r = ip.

(** Sample platforms.  On the first, [ip route get] exits with an error
    (no route to the outside) while [ip addr show] would list a global
    address, and there is no [ifconfig].  On the second, the route goes
    through the loopback interface. *)
Definition addr_show_output : str :=
  py "2: eth0: <BROADCAST,MULTICAST,UP,LOWER_UP> mtu 1500" ++ [newline] ++
  py "    inet 192.168.1.5/24 brd 192.168.1.255 scope global eth0".

Definition no_route : platform :=
  λ c, match c with
       | IpRouteGet => None
       | IpAddrShow => Some addr_show_output
       | Ifconfig => None
       end.

Definition loopback_route : platform :=
  λ c, match c with
       | IpRouteGet =>
           Some (py "local 8.8.8.8 dev lo src 127.0.0.1 uid 1000"
                 ++ [newline] ++ py "    cache <local>")
       | IpAddrShow => Some addr_show_output
       | Ifconfig => None
       end.

(** ** Configured hostnames *)

Definition comma : N := 44.
Definition asterisk : N := 42.

(** The comprehension of [parse_hostnames]:
    [[hostname.strip() for hostname in ... if hostname.strip()]] *)
Fixpoint stripped_entries (items : list str) : list str :=
  match items with
  | [] => []
  | hostname :: items' =>
      if bool_decide (Py.strip hostname = []) then stripped_entries items'
      else Py.strip hostname :: stripped_entries items'
  end.

(** [parse_hostnames], on the value of the [HOSTNAMES] variable: [None] when
    it is not set. *)
Definition parse_hostnames (HOSTNAMES : option str) : list str :=
  match HOSTNAMES with
  | Some (c :: s) => stripped_entries (Py.split comma (c :: s))
  | _ => []
  end.

(** A string without whitespace at either end. *)
Definition trimmed (s : str) : Prop :=
  (∀ c, head s = Some c → Py.isspace c = false) ∧
  (∀ c, last s = Some c → Py.isspace c = false).

(** A call that only reads. *)
Definition listing_call (c : call) : Prop :=
  match c with
  | ListRecords _ _ => True
  | _ => False
  end.

(** ** What a run may do to the service

    A record is kept when its identifier, type and name are the same and
    its content and TTL are either the same or the target address and 300.
    A zone is kept when its records are kept, in order, possibly followed by
    new ['A'] records holding the target address with a TTL of 300.  The
    service is kept when it has the same zones and each is kept. *)

Definition record_kept (ip : str) (r r' : record) : Prop :=
  r_id r' = r_id r ∧ r_type r' = r_type r ∧ r_name r' = r_name r ∧
  (r_content r' = r_content r ∨ r_content r' = ip) ∧
  (r_ttl r' = r_ttl r ∨ r_ttl r' = 300).

Definition record_added (ip : str) (r : record) : Prop :=
  r_type r = py "A" ∧ r_content r = ip ∧ r_ttl r = 300.

Definition records_kept (ip : str) (records records' : list record) : Prop :=
  ∃ kept added,
    records' = kept ++ added ∧ Forall2 (record_kept ip) records kept ∧
    Forall (record_added ip) added.

Definition service_kept (ip : str) (s s' : service) : Prop :=
  ∀ key,
    match zones s !! key, zones s' !! key with
    | Some records, Some records' => records_kept ip records records'
    | None, None => True
    | _, _ => False
    end.

(** Nothing is left to do for a hostname: it is invalid, or the target
    address is malformed, or its zone does not exist, or its record already
    holds the target address. *)
Definition settled `{UnicodeData} (account_id : N) (ip hostname : str)
    (s : service) : Prop :=
  validate_hostname hostname = false ∨ validate_ip_address ip = false ∨
  zones s !! (account_id, zone_name (Py.split dot hostname)) = None ∨
  current account_id (zone_name (Py.split dot hostname))
    (record_name (Py.split dot hostname)) ip s.

(** * Properties *)

(** ** Python strings *)

Lemma startswith_prefix s p : Py.startswith s p = true ↔ p `prefix_of` s.
Proof.
  revert s; induction p as [|a p IH]; intros s.
  - split; [intros _; apply prefix_nil | by destruct s].
  - destruct s as [|b s]; simpl.
    + split; [done | intros Hp; by apply prefix_nil_inv in Hp].
    + rewrite andb_true_iff, N.eqb_eq, IH. split.
      * intros [-> Hp]. by apply prefix_cons.
      * intros Hp. split; [by apply prefix_cons_inv_1 in Hp
                          | by apply prefix_cons_inv_2 in Hp].
Qed.

Lemma endswith_suffix s p : Py.endswith s p = true ↔ p `suffix_of` s.
Proof.
  unfold Py.endswith. rewrite startswith_prefix. symmetry.
  apply suffix_prefix_reverse.
Qed.

Lemma contains_infix sub s :
  Py.contains sub s = true ↔ ∃ a b, s = a ++ sub ++ b.
Proof.
  induction s as [|c s IH]; cbn [Py.contains].
  - rewrite orb_false_r, startswith_prefix. split.
    + intros [k ->]. by exists [], k.
    + intros (a & b & Hs). symmetry in Hs.
      apply app_eq_nil in Hs as [-> Hs]. apply app_eq_nil in Hs as [-> _].
      apply prefix_nil.
  - rewrite orb_true_iff, startswith_prefix, IH. split.
    + intros [[k ->] | (a & b & ->)].
      * by exists [], k.
      * by exists (c :: a), b.
    + intros (a & b & Hs). destruct a as [|a0 a].
      * left. exists b. done.
      * right. exists a, b. by injection Hs.
Qed.

Lemma split_nonempty sep s : Py.split sep s ≠ [].
Proof.
  destruct s as [|c s]; simpl; [done |].
  destruct (c =? sep); [done |]. by destruct (Py.split sep s).
Qed.

Lemma split_app sep p s :
  sep ∉ p →
  Py.split sep (p ++ sep :: s) = p :: Py.split sep s.
Proof.
  induction p as [|c p IH]; intros Hp; simpl.
  - by rewrite N.eqb_refl.
  - apply not_elem_of_cons in Hp as [Hc Hp].
    rewrite (proj2 (N.eqb_neq c sep)) by congruence.
    by rewrite IH.
Qed.

Lemma split_no_sep sep p : sep ∉ p → Py.split sep p = [p].
Proof.
  induction p as [|c p IH]; intros Hp; simpl; [done |].
  apply not_elem_of_cons in Hp as [Hc Hp].
  rewrite (proj2 (N.eqb_neq c sep)) by congruence.
  by rewrite IH.
Qed.

(** [split] undoes [join] on pieces free of the separator... *)
Lemma split_join sep parts :
  parts ≠ [] → Forall (λ p, sep ∉ p) parts →
  Py.split sep (Py.join [sep] parts) = parts.
Proof.
  induction parts as [|p parts IH]; intros Hne Hall; [done |].
  apply Forall_cons in Hall as [Hp Hall].
  destruct parts as [|q parts].
  - simpl. by apply split_no_sep.
  - change (Py.join [sep] (p :: q :: parts))
      with (p ++ sep :: Py.join [sep] (q :: parts)).
    rewrite split_app by done. f_equal. by apply IH.
Qed.

(** ... and [join] undoes [split], whose pieces are free of the separator. *)
Lemma join_split sep s : Py.join [sep] (Py.split sep s) = s.
Proof.
  induction s as [|c s IH]; simpl; [done |].
  destruct (c =? sep) eqn:Hc.
  - apply N.eqb_eq in Hc as ->.
    pose proof (split_nonempty sep s) as Hne.
    destruct (Py.split sep s) as [|q parts] eqn:Hs; [done |].
    change (Py.join [sep] ([] :: q :: parts))
      with (sep :: Py.join [sep] (q :: parts)).
    by rewrite IH.
  - pose proof (split_nonempty sep s) as Hne.
    destruct (Py.split sep s) as [|q parts] eqn:Hs; [done |].
    destruct parts as [|q' parts]; simpl in *; by rewrite <- IH.
Qed.

Lemma split_sep_free sep s : Forall (λ p, sep ∉ p) (Py.split sep s).
Proof.
  induction s as [|c s IH]; simpl.
  - repeat constructor. apply not_elem_of_nil.
  - destruct (c =? sep) eqn:Hc.
    + constructor; [apply not_elem_of_nil | done].
    + pose proof (split_nonempty sep s) as Hne.
      destruct (Py.split sep s) as [|q parts]; [done |].
      apply Forall_cons in IH as [Hq Hparts]. constructor; [| done].
      apply N.eqb_neq in Hc. apply not_elem_of_cons. split; [congruence | done].
Qed.

Lemma labels_of_split h labels : labels_of h labels ↔ labels = Py.split dot h.
Proof.
  unfold labels_of. split.
  - intros (Hne & -> & Hall). symmetry. by apply (split_join dot).
  - intros ->. split; [apply split_nonempty |].
    split; [symmetry; apply (join_split dot) | apply split_sep_free].
Qed.

(** ** Hostname validation *)

Section ValidationFacts.
Context `{UnicodeData}.

Lemma regular_part_ok_spec part :
  regular_part_ok part = true ↔
  (∃ c, head part = Some c ∧ isalnum c = true) ∧
  (∃ c, last part = Some c ∧ isalnum c = true) ∧
  (∀ c, c ∈ part → isalnum c = true ∨ c = hyphen).
Proof.
  unfold regular_part_ok. destruct part as [|c0 part].
  { split; [done | by intros [(c & Hc & _) _]]. }
  destruct (last (c0 :: part)) as [cl|] eqn:Hlast;
    [| by apply last_None in Hlast].
  destruct (isalnum c0) eqn:Hc0, (isalnum cl) eqn:Hcl; cbn [negb orb];
    try (split; [done |];
         intros ((c & [= <-] & ?) & (c' & [= <-] & ?) & _); congruence).
  rewrite forallb_forall. split.
  - intros Hall. split; [by exists c0 |]. split; [by exists cl |].
    intros c Hc. apply list_elem_of_In, Hall, orb_true_iff in Hc.
    destruct Hc as [Hc | Hc]; [by left | right; by apply N.eqb_eq].
  - intros (_ & _ & Hall) c Hc. apply list_elem_of_In, Hall in Hc.
    apply orb_true_iff. destruct Hc as [Hc | ->]; [by left |].
    right. apply N.eqb_refl.
Qed.

Lemma validate_parts_cons i part parts :
  validate_parts i (part :: parts) = true ↔
  label_rules i part ∧ validate_parts (S i) parts = true.
Proof.
  cbn [validate_parts]. unfold label_rules.
  destruct (bool_decide_reflect (part = [])) as [-> | Hne]; cbn [orb].
  { split; [done | by intros [[? _] _]]. }
  destruct (Nat.ltb_spec 63 (length part)) as [Hlen | Hlen].
  { split; [done | intros [(_ & ? & _) _]; lia]. }
  destruct (bool_decide_reflect (part = py "*")) as [-> | Hstar].
  - destruct (Nat.eqb_spec i 0) as [-> | Hi]; cbn [negb].
    + split; [| by intros [_ ?]]. intros Hrest. split; [| done].
      split; [done |]. split; [done |]. split; done.
    + split; [done |]. intros [(_ & _ & Hi' & _) _]. by specialize (Hi' eq_refl).
  - destruct (regular_part_ok part) eqn:Hok; cbn [negb].
    + apply regular_part_ok_spec in Hok. split; [| by intros [_ ?]].
      intros Hrest. split; [| done].
      split; [done |]. split; [lia |]. split; [done | by intros _].
    + split; [done |]. intros [(_ & _ & _ & Hreg) _].
      apply Hreg, regular_part_ok_spec in Hstar. congruence.
Qed.

Lemma validate_parts_spec parts : ∀ i,
  validate_parts i parts = true ↔
  ∀ j label, parts !! j = Some label → label_rules (i + j) label.
Proof.
  induction parts as [|part parts IH]; intros i.
  - split; [by intros _ j label | done].
  - rewrite validate_parts_cons, IH. split.
    + intros [Hpart Hrest] [|j] label Hj.
      * injection Hj as <-. by rewrite Nat.add_0_r.
      * rewrite Nat.add_succ_r. by apply Hrest.
    + intros Hall. split.
      * specialize (Hall 0%nat part eq_refl). by rewrite Nat.add_0_r in Hall.
      * intros j label Hj. specialize (Hall (S j) label Hj).
        by rewrite Nat.add_succ_r in Hall.
Qed.

(** The script and the rules agree on every string. *)
Lemma validate_hostname_rules h :
  validate_hostname h = true ↔ hostname_rules h.
Proof.
  unfold validate_hostname, hostname_rules.
  destruct (bool_decide_reflect (h = [])) as [-> | Hne]; cbn [orb].
  { split; [done | by intros [? _]]. }
  destruct (Nat.ltb_spec 253 (length h)) as [Hlen | Hlen].
  { split; [done | intros (_ & ? & _); lia]. }
  destruct (Py.startswith h (py ".")) eqn:Hstart; cbn [orb].
  { apply startswith_prefix in Hstart. split; [done | by intros (_ & _ & ? & _)]. }
  destruct (Py.endswith h (py ".")) eqn:Hend; cbn [orb].
  { apply endswith_suffix in Hend. split; [done | by intros (_ & _ & _ & ? & _)]. }
  destruct (Py.contains (py "..") h) eqn:Hdots.
  { apply contains_infix in Hdots. split; [done | by intros (_ & _ & _ & _ & ? & _)]. }
  assert (¬ py "." `prefix_of` h) as Hstart'.
  { rewrite <- startswith_prefix. congruence. }
  assert (¬ py "." `suffix_of` h) as Hend'.
  { rewrite <- endswith_suffix. congruence. }
  assert (¬ ∃ a b, h = a ++ py ".." ++ b) as Hdots'.
  { rewrite <- contains_infix. congruence. }
  cbn zeta. destruct (Nat.ltb_spec (length (Py.split dot h)) 2) as [Hfew | Hfew].
  - split; [done |]. intros (_ & _ & _ & _ & _ & labels & Hl & ? & _).
    apply labels_of_split in Hl as ->. lia.
  - rewrite validate_parts_spec. split.
    + intros Hall. do 5 (split; [done |]).
      exists (Py.split dot h). split; [by apply labels_of_split |]. done.
    + intros (_ & _ & _ & _ & _ & labels & Hl & _ & Hall).
      by apply labels_of_split in Hl as ->.
Qed.

(** A string of 254 characters or more is rejected. *)
Lemma validate_hostname_too_long h :
  (253 < length h)%nat → validate_hostname h = false.
Proof.
  intros Hlen. unfold validate_hostname.
  destruct (Nat.ltb_spec 253 (length h)); [| lia]. by rewrite orb_true_r.
Qed.

(** A label of 64 characters or more makes the hostname rejected. *)
Lemma validate_hostname_long_label h label :
  label ∈ Py.split dot h → (63 < length label)%nat →
  validate_hostname h = false.
Proof.
  intros Hin Hlen. apply not_true_is_false. intros Hv.
  apply validate_hostname_rules in Hv
    as (_ & _ & _ & _ & _ & labels & Hl & _ & Hall).
  apply labels_of_split in Hl as ->.
  apply list_elem_of_lookup in Hin as [i Hi].
  destruct (Hall i label Hi) as (_ & ? & _). lia.
Qed.

End ValidationFacts.

(** C1.  [validate_hostname] returns true exactly on the strings that obey
    the hostname rules: non-empty, at most 253 characters, no leading,
    trailing or doubled dot, at least two labels, every label of 1 to 63
    characters, ['*'] only as the first label, and every other label made of
    alphanumeric characters and hyphens with alphanumeric ends.  At the
    bounds: some hostname of 253 characters is accepted and every string of
    254 is rejected; a label of 63 characters is accepted and one of 64 makes
    the hostname rejected; ['*.*.example.com'] is rejected. *)
Theorem validate_hostname_correct `{UnicodeData} :
  (∀ h, validate_hostname h = true ↔ hostname_rules h) ∧
  (length hostname_253 = 253%nat ∧ validate_hostname hostname_253 = true) ∧
  (∀ h, length h = 254%nat → validate_hostname h = false) ∧
  (length (replicate 63 97) = 63%nat ∧
   validate_hostname (replicate 63 97 ++ py ".com") = true) ∧
  (∀ h label, label ∈ Py.split dot h → length label = 64%nat →
     validate_hostname h = false) ∧
  validate_hostname (py "*.*.example.com") = false.
Proof.
  split; [apply validate_hostname_rules |].
  split; [split; vm_compute; reflexivity |].
  split; [intros h Hh; apply validate_hostname_too_long; lia |].
  split; [split; vm_compute; reflexivity |].
  split; [| vm_compute; reflexivity].
  intros h label Hin Hlen. apply (validate_hostname_long_label h label Hin). lia.
Qed.

(** C10.  [validate_hostname] accepts a hostname with a non-ASCII character:
    [str.isalnum] holds of U+00E9, which is not an ASCII letter or digit, and
    ['héllo.example.com'] is accepted. *)
Theorem validate_hostname_accepts_non_ascii `{UnicodeData} :
  233 ∈ hello_example_com ∧ ¬ 233 < 128 ∧
  ascii_alnum 233 = false ∧ isalnum 233 = true ∧
  validate_hostname hello_example_com = true.
Proof.
  split; [| split; [lia | by vm_compute]].
  unfold hello_example_com. apply elem_of_app. right. apply elem_of_cons. by left.
Qed.

(** ** Zone and record name *)

Lemma zone_name_app leading a b :
  zone_name (leading ++ [a; b]) = a ++ py "." ++ b.
Proof.
  unfold zone_name, Py.slice_last. rewrite length_app. cbn [length].
  replace (length leading + 2 - 2)%nat with (length leading) by lia.
  by rewrite drop_app_length.
Qed.

Lemma record_name_app leading a b :
  record_name (leading ++ [a; b]) = Py.join (py ".") leading.
Proof.
  unfold record_name, Py.slice_but_last. rewrite length_app. cbn [length].
  replace (length leading + 2 - 2)%nat with (length leading) by lia.
  rewrite take_app_length.
  destruct (Nat.ltb_spec 2 (length leading + 2)) as [Hlen | Hlen]; [done |].
  destruct leading; [done | simpl in Hlen; lia].
Qed.

Lemma last_two {A} (xs : list A) :
  (2 ≤ length xs)%nat → ∃ leading a b, xs = leading ++ [a; b].
Proof.
  intros Hlen. exists (take (length xs - 2) xs).
  pose proof (take_drop (length xs - 2) xs) as Hsplit.
  assert (length (drop (length xs - 2) xs) = 2%nat) as Hdrop.
  { rewrite length_drop. lia. }
  destruct (drop (length xs - 2) xs) as [|a [|b [|c l]]]; try done.
  by exists a, b.
Qed.

Lemma validate_hostname_two_parts `{UnicodeData} h :
  validate_hostname h = true → (2 ≤ length (Py.split dot h))%nat.
Proof.
  intros Hv. apply validate_hostname_rules in Hv
    as (_ & _ & _ & _ & _ & labels & Hl & ? & _).
  by apply labels_of_split in Hl as ->.
Qed.

(** C5.  For a validated hostname, whose parts are some leading labels
    followed by two last labels, the zone name is the last two labels joined
    by a dot and the record name is the leading labels joined by dots, the
    empty string when there are none.  On the four sample hostnames the
    results are as listed. *)
Theorem zone_and_record_name_of_hostname `{UnicodeData} :
  (∀ h, validate_hostname h = true →
     ∃ leading a b,
       Py.split dot h = leading ++ [a; b] ∧
       zone_name (Py.split dot h) = a ++ py "." ++ b ∧
       record_name (Py.split dot h) = Py.join (py ".") leading ∧
       (length (Py.split dot h) = 2%nat → record_name (Py.split dot h) = [])) ∧
  (let parts := Py.split dot (py "api.example.com") in
   validate_hostname (py "api.example.com") = true ∧
   (zone_name parts, record_name parts) = (py "example.com", py "api")) ∧
  (let parts := Py.split dot (py "example.com") in
   validate_hostname (py "example.com") = true ∧
   (zone_name parts, record_name parts) = (py "example.com", py "")) ∧
  (let parts := Py.split dot (py "*.example.com") in
   validate_hostname (py "*.example.com") = true ∧
   (zone_name parts, record_name parts) = (py "example.com", py "*")) ∧
  (let parts := Py.split dot (py "*.sub.example.com") in
   validate_hostname (py "*.sub.example.com") = true ∧
   (zone_name parts, record_name parts) = (py "example.com", py "*.sub")).
Proof.
  split; [| repeat split; vm_compute; reflexivity].
  intros h Hv. apply validate_hostname_two_parts in Hv.
  destruct (last_two _ Hv) as (leading & a & b & Hparts).
  exists leading, a, b. rewrite Hparts.
  split; [done |]. split; [apply zone_name_app |].
  split; [apply record_name_app |].
  intros Hlen. rewrite record_name_app. rewrite length_app in Hlen.
  destruct leading; [done | simpl in Hlen; lia].
Qed.

(** ** The engine, over any client *)

Lemma existing_record_first name records r :
  existing_record name records = Some r ↔ first_address_record name records r.
Proof.
  unfold first_address_record, address_record.
  induction records as [|r0 records IH]; cbn [existing_record].
  - split; [done |]. intros (before & after & Heq & _). by destruct before.
  - destruct (bool_decide_reflect (r_type r0 = py "A")) as [Ht | Ht];
      [destruct (bool_decide_reflect (r_name r0 = name)) as [Hn | Hn] |];
      cbn [andb].
    + split.
      * intros [= ->]. by exists [], records.
      * intros ([|r1 before] & after & Heq & Hr & Hbefore).
        -- by injection Heq as ->.
        -- injection Heq as -> _. apply Forall_cons in Hbefore as [Hno _].
           by destruct Hno.
    + rewrite IH. split.
      * intros (before & after & -> & Hr & Hbefore).
        exists (r0 :: before), after. split; [done |]. split; [done |].
        constructor; [| done]. by intros [_ ?].
      * intros ([|r1 before] & after & Heq & Hr & Hbefore).
        -- injection Heq as -> _. by destruct Hr.
        -- injection Heq as -> ->. apply Forall_cons in Hbefore as [_ Hbefore].
           by exists before, after.
    + rewrite IH. split.
      * intros (before & after & -> & Hr & Hbefore).
        exists (r0 :: before), after. split; [done |]. split; [done |].
        constructor; [| done]. by intros [? _].
      * intros ([|r1 before] & after & Heq & Hr & Hbefore).
        -- injection Heq as -> _. by destruct Hr.
        -- injection Heq as -> ->. apply Forall_cons in Hbefore as [_ Hbefore].
           by exists before, after.
Qed.

Section EngineFacts.
Context `{UnicodeData} {S : Type} `{ZoneRecordStore S}.

Lemma bind_calls {A B} (c : M S A) (k : A → M S B) s :
  calls (bind c k s) = calls (c s) ++ calls (k (value (c s)) (final (c s))).
Proof.
  unfold bind, calls, value, final.
  destruct (c s) as [[a s1] log1]. simpl. by destruct (k a s1) as [[b s2] log2].
Qed.

Lemma create_dns_record_calls account zone name ip s :
  Forall reconciliation_call (calls (create_dns_record account zone name ip s)).
Proof.
  unfold create_dns_record, invoke, ret, calls.
  destruct (validate_ip_address ip); simpl; [| constructor].
  destruct (create_record _ _ _ _ _ _ s). by repeat constructor.
Qed.

Lemma update_dns_record_calls account zone record_id ip s :
  Forall reconciliation_call (calls (update_dns_record account zone record_id ip s)).
Proof.
  unfold update_dns_record, invoke, ret, calls.
  destruct (validate_ip_address ip); simpl; [| constructor].
  destruct (update_record _ _ _ _ _ s). by repeat constructor.
Qed.

Lemma process_hostname_calls account hostname local_ip s :
  Forall reconciliation_call
    (calls (process_hostname account hostname local_ip s)).
Proof.
  unfold process_hostname.
  destruct (validate_hostname hostname); cbn [negb]; [| constructor].
  destruct (length (Py.split dot hostname) <? 2)%nat; [constructor |].
  rewrite bind_calls. apply Forall_app. split.
  { unfold get_existing_dns_records, invoke, calls.
    destruct (list_records _ _ s). by repeat constructor. }
  destruct (value _) as [records|]; [| constructor].
  destruct (existing_record _ records) as [r|].
  - destruct (bool_decide _); [constructor |].
    rewrite bind_calls. apply Forall_app. split;
      [apply update_dns_record_calls | constructor].
  - rewrite bind_calls. apply Forall_app. split;
      [apply create_dns_record_calls | constructor].
Qed.

End EngineFacts.

Section BatchFacts.
Context `{UnicodeData} {S : Type} `{ZoneRecordStore S}.

Lemma process_hostnames_cons account ip h hs n (s : S) :
  let first := process_hostname account h ip s in
  let rest :=
    process_hostnames account ip hs
      (if succeeded (value first) then Datatypes.S n else n) (final first) in
  process_hostnames account ip (h :: hs) n s =
    (((value rest).1, (value first, calls first) :: (value rest).2),
     final rest, calls first ++ calls rest).
Proof.
  cbn [process_hostnames]. unfold bind, listen, ret, value, final, calls.
  destruct (process_hostname account h ip s) as [[o s1] log1]. simpl.
  destruct (process_hostnames account ip hs _ s1) as [[[count reports] s2] log2].
  simpl. by rewrite app_nil_r.
Qed.

Lemma process_hostnames_length account ip hs : ∀ n (s : S),
  length (value (process_hostnames account ip hs n s)).2 = length hs.
Proof.
  induction hs as [|h hs IH]; intros n s; [done |].
  rewrite process_hostnames_cons. cbn. by rewrite IH.
Qed.

(** The [i]-th report is that of [process_hostname] on the [i]-th hostname,
    from the state the loop had reached. *)
Lemma process_hostnames_lookup account ip hs : ∀ n (s : S) i h,
  hs !! i = Some h →
  ∃ s_i, (value (process_hostnames account ip hs n s)).2 !! i =
         Some (value (process_hostname account h ip s_i),
               calls (process_hostname account h ip s_i)).
Proof.
  induction hs as [|h0 hs IH]; intros n s i h Hi; [done |].
  rewrite process_hostnames_cons. cbn. destruct i as [|i].
  - injection Hi as ->. by exists s.
  - by apply IH.
Qed.

Lemma process_hostnames_count account ip hs : ∀ n (s : S),
  (value (process_hostnames account ip hs n s)).1 =
  (n + length (filter (λ r : outcome * list call, succeeded r.1 = true)
                 (value (process_hostnames account ip hs n s)).2))%nat.
Proof.
  induction hs as [|h hs IH]; intros n s.
  - cbn. lia.
  - rewrite process_hostnames_cons. cbn [value fst snd]. rewrite IH.
    rewrite filter_cons. cbn [fst].
    destruct (succeeded (value (process_hostname account h ip s)));
      [rewrite decide_True by done | rewrite decide_False by done];
      cbn [length]; lia.
Qed.

Lemma process_hostnames_calls account ip hs : ∀ n (s : S),
  calls (process_hostnames account ip hs n s) =
  concat ((value (process_hostnames account ip hs n s)).2.*2).
Proof.
  induction hs as [|h hs IH]; intros n s; [done |].
  rewrite process_hostnames_cons. cbn. by rewrite <- IH.
Qed.

Lemma process_hostnames_reconciliation_calls account ip hs : ∀ n (s : S),
  Forall reconciliation_call (calls (process_hostnames account ip hs n s)).
Proof.
  induction hs as [|h hs IH]; intros n s; [constructor |].
  rewrite process_hostnames_cons. cbn. apply Forall_app. split; [| apply IH].
  apply process_hostname_calls.
Qed.

Lemma update_dns_records_run account hs ip (s : S) :
  hs ≠ [] → ip ≠ [] →
  let loop := process_hostnames account ip hs 0 s in
  update_dns_records true (Some account) hs (Some ip) s =
    (summary (value loop).1 (length hs), final loop, calls loop).
Proof.
  intros Hhs Hip. unfold update_dns_records. cbn [negb].
  rewrite bool_decide_eq_false_2 by done.
  destruct ip as [|c ip]; [done |]. cbn [truthy negb].
  change (default [] (Some (c :: ip))) with (c :: ip).
  unfold bind, ret, value, final, calls. cbn zeta.
  destruct (process_hostnames account (c :: ip) hs 0 s)
    as [[[count reports] s'] log]. simpl. by rewrite app_nil_r.
Qed.

Lemma summary_true count total :
  (0 < total)%nat → summary count total = true ↔ (0 < count)%nat.
Proof.
  intros Htotal. unfold summary.
  destruct (Nat.eqb_spec count total) as [-> | _]; [done |].
  destruct (Nat.ltb_spec 0 count); split; (done || lia).
Qed.

Lemma filter_length_pos {A} (P : A → Prop) `{∀ x, Decision (P x)} (l : list A) :
  (0 < length (filter P l))%nat ↔ Exists P l.
Proof.
  rewrite Exists_exists. split.
  - destruct (filter P l) as [|x l'] eqn:Hf; [simpl; lia |]. intros _.
    assert (x ∈ filter P l) as Hx by (rewrite Hf; apply elem_of_cons; by left).
    apply list_elem_of_filter in Hx as [? ?]. by exists x.
  - intros (x & Hx & HP).
    assert (x ∈ filter P l) as Hin by by apply list_elem_of_filter.
    destruct (filter P l); [by apply elem_of_nil in Hin | simpl; lia].
Qed.

End BatchFacts.

Section EngineTheorems.
Context `{UnicodeData} {S : Type} `{ZoneRecordStore S}.

Lemma main_value client account hostnames local_ip (s : S) :
  value (main client account hostnames local_ip s) =
  exit_code (value (update_dns_records client account hostnames local_ip s)) ∧
  calls (main client account hostnames local_ip s) =
  calls (update_dns_records client account hostnames local_ip s).
Proof.
  unfold main, bind, ret, value, calls.
  destruct (update_dns_records client account hostnames local_ip s)
    as [[success s'] log]. simpl. by rewrite app_nil_r.
Qed.

Lemma update_dns_records_calls client account hostnames local_ip (s : S) :
  Forall reconciliation_call
    (calls (update_dns_records client account hostnames local_ip s)).
Proof.
  destruct client; [| constructor].
  destruct account as [account|]; [| constructor].
  destruct hostnames as [|h hs]; [constructor |].
  destruct local_ip as [[|c ip]|]; [constructor | | constructor].
  rewrite update_dns_records_run by done.
  apply process_hostnames_reconciliation_calls.
Qed.

(** C3.  For a non-empty hostname list (and the address found), the batch
    reports success, and the process exits with 0, exactly when some
    hostname had a non-failed outcome; it reports failure, and exits with
    1, exactly when every hostname failed.  Every hostname of the list is
    processed, whatever became of the ones before it: there is one report
    per hostname, and the [i]-th is that of [process_hostname] on the
    [i]-th hostname. *)
Theorem batch_success_policy account hostnames local_ip (s : S) :
  hostnames ≠ [] → local_ip ≠ [] →
  let run := update_dns_records true (Some account) hostnames (Some local_ip) s in
  let exit := value (main true (Some account) hostnames (Some local_ip) s) in
  let reports := (value (process_hostnames account local_ip hostnames 0 s)).2 in
  (value run = true ↔ Exists (λ r, succeeded r.1 = true) reports) ∧
  (value run = false ↔ Forall (λ r, succeeded r.1 = false) reports) ∧
  (exit = 0 ↔ Exists (λ r, succeeded r.1 = true) reports) ∧
  (exit = 1 ↔ Forall (λ r, succeeded r.1 = false) reports) ∧
  length reports = length hostnames ∧
  (∀ i h, hostnames !! i = Some h →
     ∃ s_i, reports !! i =
            Some (value (process_hostname account h local_ip s_i),
                  calls (process_hostname account h local_ip s_i))).
Proof.
  intros Hhs Hip run exit reports.
  assert (value run = true ↔ Exists (λ r, succeeded r.1 = true) reports)
    as Hsuccess.
  { unfold run. rewrite update_dns_records_run by done. cbn [value fst].
    rewrite summary_true by (destruct hostnames; [done | simpl; lia]).
    fold (value (process_hostnames account local_ip hostnames 0 s)).
    rewrite process_hostnames_count, Nat.add_0_l. apply filter_length_pos. }
  assert (value run = false ↔ Forall (λ r, succeeded r.1 = false) reports)
    as Hfailure.
  { rewrite <- not_true_iff_false, Hsuccess, <- Forall_Exists_neg.
    apply Forall_iff. intros r. apply not_true_iff_false. }
  assert (exit = exit_code (value run)) as ->
    by apply main_value.
  split; [done |]. split; [done |].
  split; [rewrite <- Hsuccess; by destruct (value run) |].
  split; [rewrite <- Hfailure; by destruct (value run) |].
  split; [apply process_hostnames_length |].
  intros i h Hi. by apply process_hostnames_lookup.
Qed.

Lemma process_hostname_unchanged account hostname local_ip (s s' : S)
    records r :
  validate_hostname hostname = true →
  let parts := Py.split dot hostname in
  list_records account (zone_name parts) s = (Some records, s') →
  existing_record (record_name parts) records = Some r →
  r_content r = local_ip →
  process_hostname account hostname local_ip s =
    (Unchanged, s', [ListRecords account (zone_name parts)]).
Proof.
  intros Hvalid parts Hlist Hfirst Hcontent.
  pose proof (validate_hostname_two_parts _ Hvalid) as Hlen.
  unfold process_hostname. rewrite Hvalid. cbn [negb].
  destruct (Nat.ltb_spec (length (Py.split dot hostname)) 2); [lia |].
  fold parts. unfold bind, get_existing_dns_records, invoke.
  rewrite Hlist, Hfirst, bool_decide_eq_true_2 by done. done.
Qed.

(** C4.  When the hostname is valid, its zone is listed, and the first
    record of the listing with type ['A'] and the derived record name
    already holds the target address, the outcome is [Unchanged] and the
    only call made is the listing: no update and no create. *)
Theorem current_record_is_left_alone account hostname local_ip (s s' : S)
    records r :
  validate_hostname hostname = true →
  let parts := Py.split dot hostname in
  list_records account (zone_name parts) s = (Some records, s') →
  first_address_record (record_name parts) records r →
  r_content r = local_ip →
  process_hostname account hostname local_ip s =
    (Unchanged, s', [ListRecords account (zone_name parts)]).
Proof.
  intros Hvalid parts Hlist Hfirst Hcontent.
  apply existing_record_first in Hfirst.
  by apply (process_hostname_unchanged _ _ _ _ _ records r).
Qed.

(** C8.  Whatever the hostnames and the state of the service, the calls
    made by the reconciliation run are listings, creations and updates:
    no deletion is among them.  (A deletion, when [delete_dns_record] is
    used, does appear in the log.) *)
Theorem reconciliation_never_deletes client account hostnames local_ip (s : S) :
  Forall reconciliation_call
    (calls (update_dns_records client account hostnames local_ip s)) ∧
  Forall reconciliation_call
    (calls (main client account hostnames local_ip s)) ∧
  (∀ a zone record_id,
     DeleteRecord a zone record_id ∉
       calls (main client account hostnames local_ip s)) ∧
  (∀ a zone record_id,
     calls (delete_dns_record a zone record_id s) =
       [DeleteRecord a zone record_id]).
Proof.
  pose proof (update_dns_records_calls client account hostnames local_ip s)
    as Hcalls.
  destruct (main_value client account hostnames local_ip s) as [_ ->].
  split; [done |]. split; [done |]. split.
  - intros a zone record_id Hin.
    by apply (proj1 (Forall_forall _ _) Hcalls) in Hin.
  - intros a zone record_id. unfold delete_dns_record, bind, invoke, ret, calls.
    by destruct (delete_record a zone record_id s).
Qed.

(** C9.  An address that [ipaddress.ip_address] rejects makes
    [create_dns_record] and [update_dns_record] fail without any call: the
    state of the service and the log are untouched.  An address it accepts
    passes the check, and the call is made with that address and a TTL of
    300; its answer is the result.  ['192.168.1.10'] and ['::1'] are
    accepted; ['999.1.1.1'], ['192.168.1'] and the empty string are not. *)
Theorem address_is_checked_before_the_call account zone name record_id ip (s : S) :
  (if validate_ip_address ip
   then
     create_dns_record account zone name ip s =
       (let '(r, s') := create_record account zone name (py "A") ip 300 s in
        (r, s', [CreateRecord account zone name (py "A") ip 300])) ∧
     update_dns_record account zone record_id ip s =
       (let '(r, s') := update_record account zone record_id ip 300 s in
        (r, s', [UpdateRecord account zone record_id ip 300]))
   else
     create_dns_record account zone name ip s = (None, s, []) ∧
     update_dns_record account zone record_id ip s = (None, s, [])) ∧
  validate_ip_address (py "192.168.1.10") = true ∧
  validate_ip_address (py "::1") = true ∧
  validate_ip_address (py "999.1.1.1") = false ∧
  validate_ip_address (py "192.168.1") = false ∧
  validate_ip_address (py "") = false.
Proof.
  split; [| by vm_compute].
  unfold create_dns_record, update_dns_record, invoke, ret.
  by destruct (validate_ip_address ip).
Qed.

End EngineTheorems.

(** Witnesses on the sample service. *)

Lemma batch_success_policy_witness :
  let hostnames := [py "api.example.com"; py "bad..example.com"] in
  hostnames ≠ [] ∧ py "10.0.0.2" ≠ [] ∧
  (value (update_dns_records (H:=latin1_only) true (Some 1) hostnames
            (Some (py "10.0.0.2")) sample_service) = true ↔
   Exists (λ r, succeeded r.1 = true)
     (value (process_hostnames (H:=latin1_only) 1 (py "10.0.0.2") hostnames 0
               sample_service)).2).
Proof.
  split; [discriminate |]. split; [discriminate |].
  apply (batch_success_policy (H:=latin1_only) 1
           [py "api.example.com"; py "bad..example.com"] (py "10.0.0.2")
           sample_service); discriminate.
Defined.

Lemma current_record_is_left_alone_witness :
  process_hostname (H:=latin1_only) 1 (py "api.example.com") (py "10.0.0.1")
    sample_service =
  (Unchanged, sample_service, [ListRecords 1 (py "example.com")]).
Proof.
  apply (current_record_is_left_alone (H:=latin1_only) 1 (py "api.example.com")
           (py "10.0.0.1") sample_service sample_service [api_record] api_record).
  - vm_compute; reflexivity.
  - vm_compute; reflexivity.
  - exists [], []. split; [reflexivity |]. split; [| constructor].
    split; reflexivity.
  - reflexivity.
Defined.

(** ** The engine against the service that keeps what it is told *)

Lemma existing_record_elem name records r :
  existing_record name records = Some r → r ∈ records.
Proof.
  intros (before & after & -> & _)%existing_record_first.
  apply elem_of_app. right. apply elem_of_cons. by left.
Qed.

Lemma find_id record_id records :
  (∃ r, r ∈ records ∧ r_id r = record_id) →
  is_Some (find (λ r, bool_decide (r_id r = record_id)) records).
Proof.
  induction records as [|r0 records IH]; intros (r & Hin & Hid).
  - by apply elem_of_nil in Hin.
  - cbn [find]. destruct (bool_decide_reflect (r_id r0 = record_id)); [done |].
    apply IH. apply elem_of_cons in Hin as [-> | Hin]; [done |]. by exists r.
Qed.

Lemma existing_record_app_l name records r extra :
  existing_record name records = Some r →
  existing_record name (records ++ extra) = Some r.
Proof.
  induction records as [|r0 records IH]; [done |]. cbn [app existing_record].
  by destruct (_ && _).
Qed.

Lemma existing_record_app_r name records r :
  existing_record name records = None → address_record name r →
  existing_record name (records ++ [r]) = Some r.
Proof.
  intros Hnone [Htype Hname].
  induction records as [|r0 records IH]; cbn [app existing_record] in *.
  - by rewrite !bool_decide_eq_true_2.
  - destruct (_ && _); [done | by apply IH].
Qed.

Lemma apply_update_fields record_id content ttl r0 :
  let r1 := apply_update record_id content ttl r0 in
  r_id r1 = r_id r0 ∧ r_type r1 = r_type r0 ∧ r_name r1 = r_name r0 ∧
  (r_id r0 = record_id → r_content r1 = content ∧ r_ttl r1 = ttl) ∧
  (r_id r0 ≠ record_id → r1 = r0).
Proof.
  unfold apply_update.
  destruct (bool_decide_reflect (r_id r0 = record_id)); by repeat split.
Qed.

Lemma existing_record_update name record_id content ttl records r :
  existing_record name records = Some r →
  existing_record name (apply_update record_id content ttl <$> records) =
    Some (apply_update record_id content ttl r).
Proof.
  induction records as [|r0 records IH]; [done |].
  cbn [fmap list_fmap existing_record].
  destruct (apply_update_fields record_id content ttl r0) as (_ & -> & -> & _).
  destruct (_ && _); [by intros [= ->] | apply IH].
Qed.

Lemma apply_update_content record_id ip ttl r :
  r_content r = ip ∨ r_id r = record_id →
  r_content (apply_update record_id ip ttl r) = ip.
Proof.
  unfold apply_update. destruct (bool_decide_reflect (r_id r = record_id)); [done |].
  by intros [? | ?].
Qed.

(** Writes of the target address keep what is already current. *)
Lemma service_create_current account zone name type ttl ip s r s' a z n :
  service_create account zone name type ip ttl s = (Some r, s') →
  current a z n ip s → current a z n ip s'.
Proof.
  unfold service_create, current.
  destruct (zones s !! (account, zone)) as [records|] eqn:Hzone; [| done].
  intros [= <- <-] (records0 & r0 & Hz & Hfirst & Hcontent). cbn [zones].
  destruct (decide ((account, zone) = (a, z))) as [[= <- <-] | Hne].
  - rewrite Hzone in Hz. injection Hz as <-.
    eexists _, r0. rewrite lookup_insert_eq. split; [done |].
    split; [by apply existing_record_app_l | done].
  - exists records0, r0. by rewrite lookup_insert_ne.
Qed.

Lemma service_update_current account zone record_id ttl ip s r s' a z n :
  service_update account zone record_id ip ttl s = (Some r, s') →
  current a z n ip s → current a z n ip s'.
Proof.
  unfold service_update, current.
  destruct (zones s !! (account, zone)) as [records|] eqn:Hzone; [| done].
  destruct (find _ records) as [found|]; [| done].
  intros [= <- <-] (records0 & r0 & Hz & Hfirst & Hcontent). cbn [zones].
  destruct (decide ((account, zone) = (a, z))) as [[= <- <-] | Hne].
  - rewrite Hzone in Hz. injection Hz as <-.
    eexists _, _. rewrite lookup_insert_eq. split; [done |].
    split; [by apply existing_record_update |].
    apply apply_update_content. by left.
  - exists records0, r0. by rewrite lookup_insert_ne.
Qed.

Section ServiceFacts.
Context `{UnicodeData}.

(** What [process_hostname] did to the service, by outcome. *)
Lemma process_hostname_service account h ip (s : service) :
  let run := process_hostname account h ip s in
  let zone := zone_name (Py.split dot h) in
  let name := record_name (Py.split dot h) in
  match value run with
  | Unchanged => final run = s ∧ calls run = [ListRecords account zone] ∧
      validate_hostname h = true ∧ current account zone name ip s
  | Updated => validate_hostname h = true ∧ validate_ip_address ip = true ∧
      ∃ records r r',
        zones s !! (account, zone) = Some records ∧
        existing_record name records = Some r ∧ r_content r ≠ ip ∧
        service_update account zone (r_id r) ip 300 s = (Some r', final run) ∧
        calls run = [ListRecords account zone;
                     UpdateRecord account zone (r_id r) ip 300]
  | Created => validate_hostname h = true ∧
      ∃ records r',
        zones s !! (account, zone) = Some records ∧
        existing_record name records = None ∧
        service_create account zone name (py "A") ip 300 s =
          (Some r', final run)
  | Failed _ => final run = s
  end.
Proof.
  unfold process_hostname.
  destruct (validate_hostname h) eqn:Hvalid; cbn [negb]; [| done].
  destruct (length (Py.split dot h) <? 2)%nat; [done |].
  unfold bind, get_existing_dns_records, invoke.
  cbn [list_records service_store]. unfold service_list.
  destruct (zones s !! _) as [records|] eqn:Hzone; [| done].
  destruct (existing_record _ records) as [r|] eqn:Hfirst.
  - destruct (bool_decide_reflect (r_content r = ip)) as [Hcontent | Hcontent].
    + cbn. split; [done |]. split; [done |]. split; [done |].
      by exists records, r.
    + unfold update_dns_record.
      destruct (validate_ip_address ip) eqn:Hip; cbn [negb]; [| done].
      unfold invoke. cbn [update_record service_store].
      destruct (service_update _ _ _ _ _ s) as [[r'|] s'] eqn:Hupdate; cbn.
      * split; [done |]. split; [done |]. by exists records, r, r'.
      * unfold service_update in Hupdate. rewrite Hzone in Hupdate.
        destruct (find _ records); [done | by injection Hupdate as <-].
  - unfold create_dns_record.
    destruct (validate_ip_address ip) eqn:Hip; cbn [negb]; [| done].
    unfold invoke. cbn [create_record service_store].
    destruct (service_create _ _ _ _ _ _ s) as [[r'|] s'] eqn:Hcreate; cbn.
    + split; [done |]. by exists records, r'.
    + unfold service_create in Hcreate. by rewrite Hzone in Hcreate.
Qed.

Lemma process_hostname_keeps_current account h ip (s : service) a z n :
  current a z n ip s →
  current a z n ip (final (process_hostname account h ip s)).
Proof.
  intros Hcurrent. pose proof (process_hostname_service account h ip s) as Hrun.
  cbn zeta in Hrun. destruct (value _).
  - by destruct Hrun as [-> _].
  - destruct Hrun as (_ & _ & records & r & r' & _ & _ & _ & Hupdate & _).
    by eapply service_update_current.
  - destruct Hrun as (_ & records & r' & _ & _ & Hcreate).
    by eapply service_create_current.
  - by rewrite Hrun.
Qed.

Lemma process_hostname_makes_current account h ip (s : service) :
  let run := process_hostname account h ip s in
  value run = Created ∨ value run = Updated →
  validate_hostname h = true ∧
  current account (zone_name (Py.split dot h))
    (record_name (Py.split dot h)) ip (final run).
Proof.
  intros run Hdone. pose proof (process_hostname_service account h ip s) as Hrun.
  cbn zeta in Hrun. fold run in Hrun. destruct (value run).
  - by destruct Hdone.
  - destruct Hrun as (Hvalid & _ & records & r & r' & Hzone & Hfirst & _ & Hupdate & _).
    split; [done |]. unfold service_update in Hupdate. rewrite Hzone in Hupdate.
    destruct (find _ records); [| done]. injection Hupdate as _ <-.
    eexists _, _. cbn [zones]. rewrite lookup_insert_eq. split; [done |].
    split; [by apply existing_record_update |].
    apply apply_update_content. by right.
  - destruct Hrun as (Hvalid & records & r' & Hzone & Hfirst & Hcreate).
    split; [done |]. unfold service_create in Hcreate. rewrite Hzone in Hcreate.
    injection Hcreate as _ <-.
    eexists _, _. cbn [zones]. rewrite lookup_insert_eq. split; [done |].
    split; [by apply existing_record_app_r |]. done.
  - by destruct Hdone.
Qed.

Lemma process_hostnames_keep_current account ip hs a z n : ∀ k (s : service),
  current a z n ip s →
  current a z n ip (final (process_hostnames account ip hs k s)).
Proof.
  induction hs as [|h hs IH]; intros k s Hcurrent; [done |].
  rewrite process_hostnames_cons. cbn. apply IH.
  by apply process_hostname_keeps_current.
Qed.

(** After a run, what the run created or updated is current. *)
Lemma first_run_makes_current account ip hs : ∀ k (s : service) i o log,
  (value (process_hostnames account ip hs k s)).2 !! i = Some (o, log) →
  o = Created ∨ o = Updated →
  ∃ h, hs !! i = Some h ∧ validate_hostname h = true ∧
       current account (zone_name (Py.split dot h))
         (record_name (Py.split dot h)) ip
         (final (process_hostnames account ip hs k s)).
Proof.
  induction hs as [|h hs IH]; intros k s i o log; [done |].
  rewrite process_hostnames_cons. cbn. destruct i as [|i]; cbn.
  - intros [= <- <-] Hdone. exists h. split; [done |].
    destruct (process_hostname_makes_current account h ip s Hdone)
      as [Hvalid Hcurrent].
    split; [done |]. by apply process_hostnames_keep_current.
  - intros Hi Hdone. by apply IH with (o := o) (log := log).
Qed.

(** In a run, a valid hostname whose record is current comes out
    unchanged, with the listing as its only call. *)
Lemma current_stays_unchanged account ip hs : ∀ k (s : service) i h,
  hs !! i = Some h → validate_hostname h = true →
  current account (zone_name (Py.split dot h))
    (record_name (Py.split dot h)) ip s →
  (value (process_hostnames account ip hs k s)).2 !! i =
    Some (Unchanged, [ListRecords account (zone_name (Py.split dot h))]).
Proof.
  induction hs as [|h0 hs IH]; intros k s i h Hi Hvalid Hcurrent; [done |].
  rewrite process_hostnames_cons. cbn. destruct i as [|i]; cbn.
  - injection Hi as ->. destruct Hcurrent as (records & r & Hzone & Hfirst & Hcontent).
    rewrite (process_hostname_unchanged account h ip s s records r); try done.
    cbn. unfold service_list. by rewrite Hzone.
  - apply IH; [done | done |]. by apply process_hostname_keeps_current.
Qed.

(** C2.  Run the loop over the same hostnames and the same address twice,
    the second time on the state of the service the first run left.  Every
    hostname that the first run created or updated is unchanged in the
    second run, which makes a listing call for it and no other call. *)
Theorem second_run_is_unchanged account hostnames local_ip (s : service)
    i o log :
  let first := process_hostnames account local_ip hostnames 0 s in
  let second := process_hostnames account local_ip hostnames 0 (final first) in
  (value first).2 !! i = Some (o, log) →
  o = Created ∨ o = Updated →
  ∃ h, hostnames !! i = Some h ∧
       (value second).2 !! i =
         Some (Unchanged, [ListRecords account (zone_name (Py.split dot h))]).
Proof.
  intros first second Hi Hdone.
  destruct (first_run_makes_current account local_ip hostnames 0 s i o log
              Hi Hdone) as (h & Hh & Hvalid & Hcurrent).
  exists h. split; [done |]. by apply current_stays_unchanged.
Qed.

(** C7 as amended.  When a valid hostname has a stale record and the
    target address is well formed, [process_hostname] lists the zone and
    sends one update for that record, with the target address and a TTL
    of 300.  In the service, the record with that identifier gets the
    target address as content and 300 as TTL and keeps its identifier,
    type and name; the other records are as they were. *)
Theorem update_sets_content_and_ttl account hostname local_ip (s : service)
    records r :
  validate_hostname hostname = true →
  validate_ip_address local_ip = true →
  let zone := zone_name (Py.split dot hostname) in
  let name := record_name (Py.split dot hostname) in
  zones s !! (account, zone) = Some records →
  first_address_record name records r →
  r_content r ≠ local_ip →
  let run := process_hostname account hostname local_ip s in
  value run = Updated ∧
  calls run = [ListRecords account zone;
               UpdateRecord account zone (r_id r) local_ip 300] ∧
  zones (final run) =
    <[(account, zone) := apply_update (r_id r) local_ip 300 <$> records]>
      (zones s) ∧
  (∀ r0, let r1 := apply_update (r_id r) local_ip 300 r0 in
     r_id r1 = r_id r0 ∧ r_type r1 = r_type r0 ∧ r_name r1 = r_name r0 ∧
     (r_id r0 = r_id r → r_content r1 = local_ip ∧ r_ttl r1 = 300) ∧
     (r_id r0 ≠ r_id r → r1 = r0)).
Proof.
  intros Hvalid Hip zone name Hzone Hfirst Hstale run.
  apply existing_record_first in Hfirst.
  pose proof (validate_hostname_two_parts _ Hvalid) as Hlen.
  assert (run = (Updated,
                 {| zones := <[(account, zone) :=
                                apply_update (r_id r) local_ip 300 <$> records]>
                             (zones s);
                    next_id := next_id s |},
                 [ListRecords account zone;
                  UpdateRecord account zone (r_id r) local_ip 300])) as ->.
  { unfold run, process_hostname. rewrite Hvalid. cbn [negb].
    destruct (Nat.ltb_spec (length (Py.split dot hostname)) 2); [lia |].
    fold zone name. unfold bind, get_existing_dns_records, invoke.
    cbn [list_records service_store]. unfold service_list.
    rewrite Hzone, Hfirst, bool_decide_eq_false_2 by done.
    unfold update_dns_record. rewrite Hip. cbn [negb]. unfold invoke.
    cbn [update_record service_store]. unfold service_update. rewrite Hzone.
    destruct (find_id (r_id r) records) as [found ->]; [| done].
    exists r. split; [by apply existing_record_elem in Hfirst | done]. }
  split; [done |]. split; [done |]. split; [done |].
  intros r0. apply apply_update_fields.
Qed.

End ServiceFacts.

Lemma second_run_is_unchanged_witness :
  let hostnames := [py "api.example.com"; py "example.com"] in
  let first :=
    process_hostnames (H:=latin1_only) 1 (py "10.0.0.2") hostnames 0
      sample_service in
  ∃ h, hostnames !! 0%nat = Some h ∧
       (value (process_hostnames (H:=latin1_only) 1 (py "10.0.0.2") hostnames 0
                 (final first))).2 !! 0%nat =
         Some (Unchanged, [ListRecords 1 (zone_name (Py.split dot h))]).
Proof.
  apply (second_run_is_unchanged (H:=latin1_only) 1
           [py "api.example.com"; py "example.com"] (py "10.0.0.2")
           sample_service 0 Updated
           [ListRecords 1 (py "example.com");
            UpdateRecord 1 (py "example.com") 7 (py "10.0.0.2") 300]).
  - vm_compute; reflexivity.
  - right; reflexivity.
Defined.

(** C7 as stated fails: on the sample service the record for [api] has a
    TTL of 3600 and a stale address; after [process_hostname] it has the
    new address and a TTL of 300. *)
Lemma update_overwrites_ttl :
  let run :=
    process_hostname (H:=latin1_only) 1 (py "api.example.com") (py "10.0.0.2")
      sample_service in
  zones sample_service !! (1, py "example.com") =
    Some [{| r_id := 7; r_type := py "A"; r_name := py "api";
             r_content := py "10.0.0.1"; r_ttl := 3600 |}] ∧
  value run = Updated ∧
  calls run = [ListRecords 1 (py "example.com");
               UpdateRecord 1 (py "example.com") 7 (py "10.0.0.2") 300] ∧
  zones (final run) !! (1, py "example.com") =
    Some [{| r_id := 7; r_type := py "A"; r_name := py "api";
             r_content := py "10.0.0.2"; r_ttl := 300 |}] ∧
  (300 : N) ≠ 3600.
Proof. repeat split; try (vm_compute; reflexivity). discriminate. Qed.

Lemma update_sets_content_and_ttl_witness :
  let run :=
    process_hostname (H:=latin1_only) 1 (py "api.example.com") (py "10.0.0.2")
      sample_service in
  value run = Updated ∧
  zones (final run) =
    <[(1, py "example.com") := apply_update 7 (py "10.0.0.2") 300 <$> [api_record]]>
      (zones sample_service).
Proof.
  destruct (update_sets_content_and_ttl (H:=latin1_only) 1 (py "api.example.com")
              (py "10.0.0.2") sample_service [api_record] api_record)
    as (Hvalue & _ & Hzones & _).
  - vm_compute; reflexivity.
  - vm_compute; reflexivity.
  - vm_compute; reflexivity.
  - exists [], []. split; [reflexivity |]. split; [| constructor].
    split; reflexivity.
  - discriminate.
  - split; [exact Hvalue | exact Hzones].
Defined.

(** ** Address discovery *)

(** C6 as stated fails: on [no_route] the route query fails, discovery ends
    with [None] after [ip route get] and [ifconfig] only, and [ip addr show],
    which would have given 192.168.1.5, is never run. *)
Lemma failed_route_query_skips_interface_dump :
  no_route IpRouteGet = None ∧
  get_ip_linux no_route = (None, [IpRouteGet]) ∧
  get_ethernet_ip no_route = (None, [IpRouteGet; Ifconfig]) ∧
  (IpAddrShow ∉ snd (get_ethernet_ip no_route)) ∧
  no_route IpAddrShow = Some addr_show_output ∧
  scan_addr (Py.split newline addr_show_output) = Some (py "192.168.1.5").
Proof.
  repeat split; try (vm_compute; reflexivity).
  intros Hin. apply elem_of_cons in Hin as [? | Hin]; [done |].
  apply elem_of_cons in Hin as [? | Hin]; [done |]. by apply elem_of_nil in Hin.
Qed.

(** C6 as amended.  When [ip route get] returns and its output holds no
    qualifying address (and parsing it raises nothing), [ip addr show] is run
    next.  When [ip route get] fails, or parsing its output raises,
    [get_ip_linux] returns [None] at once and discovery goes on to
    [ifconfig] without running [ip addr show].  Discovery returns [None] only
    after [get_ip_linux] and then [get_ip_macos] were tried, [ifconfig]
    being the last command run, and neither returned a non-empty address. *)
Theorem discovery_fallback_order (os : platform) :
  (∀ stdout, os IpRouteGet = Some stdout →
     scan_route (Py.split newline stdout) = RouteNothing →
     ∃ ran, (get_ethernet_ip os).2 = IpRouteGet :: IpAddrShow :: ran) ∧
  (os IpRouteGet = None ∨
   (∃ stdout, os IpRouteGet = Some stdout ∧
              scan_route (Py.split newline stdout) = RouteValueError) →
     get_ip_linux os = (None, [IpRouteGet]) ∧
     (get_ethernet_ip os).2 = [IpRouteGet; Ifconfig]) ∧
  ((get_ethernet_ip os).1 = None →
     (get_ethernet_ip os).2 = (get_ip_linux os).2 ++ [Ifconfig] ∧
     head (get_ethernet_ip os).2 = Some IpRouteGet ∧
     truthy (get_ip_linux os).1 = false ∧
     truthy (get_ip_macos os).1 = false).
Proof.
  split; [| split].
  - intros stdout Hroute Hscan. unfold get_ethernet_ip, get_ip_linux.
    rewrite Hroute, Hscan.
    destruct (os IpAddrShow) as [stdout'|]; cbn [truthy].
    + destruct (truthy _); [by eexists |].
      destruct (get_ip_macos os) as [macos ran']. destruct (truthy macos); by eexists.
    + destruct (get_ip_macos os) as [macos ran']. destruct (truthy macos); by eexists.
  - intros Hfail.
    assert (get_ip_linux os = (None, [IpRouteGet])) as Hlinux.
    { unfold get_ip_linux. destruct Hfail as [-> | (stdout & -> & ->)]; done. }
    split; [done |]. unfold get_ethernet_ip. rewrite Hlinux. cbn [truthy].
    unfold get_ip_macos. destruct (os Ifconfig) as [stdout|]; [| done].
    by destruct (truthy _).
  - unfold get_ethernet_ip.
    assert (head (get_ip_linux os).2 = Some IpRouteGet) as Hhead.
    { unfold get_ip_linux. destruct (os IpRouteGet); [| done].
      destruct (scan_route _); try done. by destruct (os IpAddrShow). }
    destruct (get_ip_linux os) as [linux ran] eqn:Hlinux.
    destruct (truthy linux) eqn:Htruthy.
    { intros Hnone. cbn in Hnone. by rewrite Hnone in Htruthy. }
    assert ((get_ip_macos os).2 = [Ifconfig]) as Hran.
    { unfold get_ip_macos. by destruct (os Ifconfig). }
    destruct (get_ip_macos os) as [macos ran'] eqn:Hmacos.
    cbn in Hran. subst ran'. cbn [fst snd] in *.
    destruct (truthy macos) eqn:Htruthy'.
    { intros Hnone. cbn in Hnone. by rewrite Hnone in Htruthy'. }
    intros _. cbn [fst snd]. split; [done |]. split; [| done].
    destruct ran; [done | by cbn in *].
Qed.

Lemma discovery_fallback_order_witness :
  ∃ ran, (get_ethernet_ip loopback_route).2 = IpRouteGet :: IpAddrShow :: ran.
Proof.
  apply (proj1 (discovery_fallback_order loopback_route)
           (py "local 8.8.8.8 dev lo src 127.0.0.1 uid 1000"
            ++ [newline] ++ py "    cache <local>")).
  - reflexivity.
  - vm_compute; reflexivity.
Defined.

(** An address that discovery returns is never empty and is neither a
    loopback nor a link-local one. *)

Lemma split_ws_aux_nonempty s : ∀ cur,
  Forall (λ token, token ≠ []) (Py.split_ws_aux cur s).
Proof.
  assert (∀ c (cur : str), reverse (c :: cur) ≠ []) as Hrev.
  { intros c cur Heq. apply (f_equal length) in Heq.
    by rewrite length_reverse in Heq. }
  induction s as [|c s IH]; intros cur; cbn [Py.split_ws_aux].
  - destruct cur; repeat constructor. apply Hrev.
  - destruct (Py.isspace c); [| apply IH].
    destruct cur; [apply IH |]. constructor; [apply Hrev | apply IH].
Qed.

Lemma scan_route_qualifies lines ip :
  scan_route lines = RouteFound ip →
  ip ≠ [] ∧ not_loopback_or_link_local ip = true.
Proof.
  induction lines as [|line lines IH]; cbn [scan_route]; [done |].
  destruct (Py.contains _ line); [| exact IH].
  destruct (Py.index _ _) as [src_index|]; [| done].
  destruct (_ !! _) as [ip'|] eqn:Hip; [| exact IH].
  destruct (not_loopback_or_link_local ip') eqn:Hok; [| exact IH].
  intros [= <-]. split; [| done].
  apply list_elem_of_lookup_2 in Hip.
  by apply (proj1 (Forall_forall _ _) (split_ws_aux_nonempty line [])) in Hip.
Qed.

Lemma scan_addr_qualifies lines ip :
  scan_addr lines = Some ip → not_loopback_or_link_local ip = true.
Proof.
  induction lines as [|line lines IH]; cbn [scan_addr]; [done |].
  destruct (_ && _); [| exact IH].
  destruct (Py.split_ws _) as [|p0 [|p1 parts]]; [exact IH | exact IH |].
  destruct (not_loopback_or_link_local
              (default [] (head (Py.split slash p1)))) eqn:Hok; [| exact IH].
  by intros [= <-].
Qed.

Lemma scan_ifconfig_qualifies lines : ∀ current_interface ip,
  scan_ifconfig current_interface lines = Some ip →
  not_loopback_or_link_local ip = true.
Proof.
  induction lines as [|line lines IH]; intros current_interface ip;
    cbn [scan_ifconfig]; [done |].
  destruct (Py.startswith (Py.strip line) (py "en")); [apply IH |].
  destruct (_ && _); [| apply IH].
  destruct (Py.split_ws _) as [|p0 [|p1 parts]]; [apply IH | apply IH |].
  destruct (not_loopback_or_link_local p1) eqn:Hok; [| apply IH].
  by intros [= <-].
Qed.

Lemma get_ethernet_ip_qualifies os ip :
  fst (get_ethernet_ip os) = Some ip →
  ip ≠ [] ∧ not_loopback_or_link_local ip = true.
Proof.
  unfold get_ethernet_ip.
  destruct (get_ip_linux os) as [linux ran] eqn:Hlinux.
  destruct (truthy linux) eqn:Htruthy.
  - cbn. intros ->. split; [intros Hnil; by subst |].
    unfold get_ip_linux in Hlinux. destruct (os IpRouteGet); [| done].
    destruct (scan_route _) eqn:Hscan; try done.
    + injection Hlinux as <- _. exact (proj2 (scan_route_qualifies _ _ Hscan)).
    + destruct (os IpAddrShow); [| done]. injection Hlinux as Hscan' _.
      by apply scan_addr_qualifies in Hscan'.
  - destruct (get_ip_macos os) as [macos ran'] eqn:Hmacos.
    destruct (truthy macos) eqn:Htruthy'; [| done].
    cbn. intros ->. split; [intros Hnil; by subst |].
    unfold get_ip_macos in Hmacos. destruct (os Ifconfig); [| done].
    injection Hmacos as Hscan _. by apply scan_ifconfig_qualifies in Hscan.
Qed.

(** * Further properties *)

(** ** Configured hostnames *)

Lemma lstrip_head s :
  ∀ c, head (Py.lstrip s) = Some c → Py.isspace c = false.
Proof.
  induction s as [|c0 s IH]; intros c; cbn [Py.lstrip]; [done |].
  destruct (Py.isspace c0) eqn:Hc0; [apply IH |]. by intros [= <-].
Qed.

Lemma lstrip_suffix s : Py.lstrip s `suffix_of` s.
Proof.
  induction s as [|c0 s IH]; cbn [Py.lstrip]; [done |].
  destruct (Py.isspace c0); [by apply suffix_cons_r | done].
Qed.

Lemma lstrip_id s :
  (∀ c, head s = Some c → Py.isspace c = false) → Py.lstrip s = s.
Proof.
  destruct s as [|c0 s]; [done |]. intros Hhead. cbn [Py.lstrip].
  by rewrite (Hhead c0 eq_refl).
Qed.

Lemma last_suffix {A} (l1 l2 : list A) :
  l1 `suffix_of` l2 → l1 ≠ [] → last l1 = last l2.
Proof.
  intros [k ->] Hne. rewrite last_app. destruct (last l1) eqn:Hlast; [done |].
  by apply last_None in Hlast.
Qed.

Lemma strip_trimmed s : trimmed (Py.strip s).
Proof.
  unfold trimmed, Py.strip. split; intros c.
  - rewrite head_reverse.
    destruct (decide (Py.lstrip (reverse (Py.lstrip s)) = [])) as [-> | Hne];
      [done |].
    rewrite (last_suffix _ _ (lstrip_suffix _) Hne), last_reverse.
    apply lstrip_head.
  - rewrite last_reverse. apply lstrip_head.
Qed.

Lemma strip_id s : trimmed s → Py.strip s = s.
Proof.
  intros [Hhead Hlast]. unfold Py.strip. rewrite (lstrip_id s Hhead).
  rewrite lstrip_id; [apply reverse_involutive |].
  intros c. rewrite head_reverse. apply Hlast.
Qed.

Lemma strip_elem c s : c ∈ Py.strip s → c ∈ s.
Proof.
  unfold Py.strip. rewrite elem_of_reverse. intros Hin.
  destruct (lstrip_suffix (reverse (Py.lstrip s))) as [k Hk].
  assert (c ∈ reverse (Py.lstrip s)) as Hin'.
  { rewrite Hk. apply elem_of_app. by right. }
  rewrite elem_of_reverse in Hin'.
  destruct (lstrip_suffix s) as [k' Hk']. rewrite Hk'.
  apply elem_of_app. by right.
Qed.

Lemma stripped_entries_spec items h :
  h ∈ stripped_entries items ↔ h ≠ [] ∧ ∃ item, item ∈ items ∧ h = Py.strip item.
Proof.
  induction items as [|item items IH]; cbn [stripped_entries].
  - split; [by intros Hin%elem_of_nil |].
    intros (_ & item & Hin%elem_of_nil & _). done.
  - destruct (bool_decide_reflect (Py.strip item = [])) as [Hempty | Hfull].
    + rewrite IH. split.
      * intros (Hne & item' & Hin & ->). split; [done |]. exists item'.
        split; [apply elem_of_cons; by right | done].
      * intros (Hne & item' & Hin & ->). split; [done |]. exists item'.
        apply elem_of_cons in Hin as [-> | Hin]; [congruence | done].
    + rewrite elem_of_cons, IH. split.
      * intros [-> | (Hne & item' & Hin & ->)].
        -- split; [done |]. exists item. split; [apply elem_of_cons; by left | done].
        -- split; [done |]. exists item'. split; [apply elem_of_cons; by right | done].
      * intros (Hne & item' & Hin & ->).
        apply elem_of_cons in Hin as [-> | Hin]; [by left |].
        right. split; [done |]. by exists item'.
Qed.

(** X1.  Every hostname that [parse_hostnames] returns is non-empty, has no
    whitespace at either end and holds no comma; when [HOSTNAMES] is not set
    or is empty, the result is the empty list. *)
Theorem parse_hostnames_entries :
  (∀ HOSTNAMES h, h ∈ parse_hostnames HOSTNAMES →
     h ≠ [] ∧ trimmed h ∧ comma ∉ h) ∧
  parse_hostnames None = [] ∧
  parse_hostnames (Some []) = [].
Proof.
  split; [| done]. intros [[|c s]|] h; cbn [parse_hostnames];
    try by intros Hin%elem_of_nil.
  intros (Hne & item & Hin & ->)%stripped_entries_spec.
  split; [done |]. split; [apply strip_trimmed |].
  intros Hcomma%strip_elem.
  by apply (proj1 (Forall_forall _ _) (split_sep_free comma (c :: s)) item Hin).
Qed.

Lemma stripped_entries_id items :
  Forall (λ h, h ≠ [] ∧ trimmed h) items → stripped_entries items = items.
Proof.
  induction 1 as [|h items [Hne Htrim] _ IH]; cbn [stripped_entries]; [done |].
  rewrite (strip_id h Htrim), bool_decide_eq_false_2 by done. by rewrite IH.
Qed.

(** X2.  Joining hostnames with commas and parsing the result gives the
    hostnames back, in order, provided each is non-empty, has no whitespace
    at either end and holds no comma. *)
Theorem parse_hostnames_join hostnames :
  Forall (λ h, h ≠ [] ∧ trimmed h ∧ comma ∉ h) hostnames →
  parse_hostnames (Some (Py.join (py ",") hostnames)) = hostnames.
Proof.
  intros Hall. destruct hostnames as [|h0 hostnames]; [done |].
  assert (Py.join (py ",") (h0 :: hostnames) ≠ []) as Hne.
  { apply Forall_cons in Hall as [(Hne & _) _].
    destruct hostnames; cbn [Py.join]; [done |]. by destruct h0. }
  unfold parse_hostnames.
  destruct (Py.join (py ",") (h0 :: hostnames)) as [|c s] eqn:Hjoin; [done |].
  rewrite <- Hjoin. change (py ",") with [comma]. rewrite split_join.
  - apply stripped_entries_id. eapply Forall_impl; [exact Hall |].
    by intros h (? & ? & _).
  - done.
  - eapply Forall_impl; [exact Hall |]. by intros h (_ & _ & ?).
Qed.

Lemma parse_hostnames_join_witness :
  parse_hostnames (Some (Py.join (py ",") [py "api.example.com"; py "example.com"]))
  = [py "api.example.com"; py "example.com"].
Proof.
  apply (parse_hostnames_join [py "api.example.com"; py "example.com"]).
  repeat constructor; try discriminate;
    try (intros c [= <-]; reflexivity).
  - intros Hin. vm_compute in Hin. by repeat (apply elem_of_cons in Hin as [? | Hin]; [done |]); apply elem_of_nil in Hin.
  - intros Hin. vm_compute in Hin. by repeat (apply elem_of_cons in Hin as [? | Hin]; [done |]); apply elem_of_nil in Hin.
Defined.

(** ** Shape of a valid hostname *)

Lemma join_cons sep p q parts :
  Py.join sep (p :: q :: parts) = p ++ sep ++ Py.join sep (q :: parts).
Proof. reflexivity. Qed.

Lemma join_app sep l1 l2 :
  l1 ≠ [] → l2 ≠ [] →
  Py.join sep (l1 ++ l2) = Py.join sep l1 ++ sep ++ Py.join sep l2.
Proof.
  intros Hl1 Hl2. induction l1 as [|p l1 IH]; [done |].
  destruct l1 as [|q l1].
  - destruct l2 as [|q l2]; [done |]. reflexivity.
  - change ((p :: q :: l1) ++ l2) with (p :: q :: (l1 ++ l2)).
    rewrite !join_cons. change (q :: l1 ++ l2) with ((q :: l1) ++ l2).
    rewrite IH by done. by rewrite <- !app_assoc.
Qed.

Lemma elem_of_join c sep parts :
  c ∈ Py.join sep parts → c ∈ sep ∨ ∃ p, p ∈ parts ∧ c ∈ p.
Proof.
  induction parts as [|p parts IH]; [by intros Hin%elem_of_nil |].
  destruct parts as [|q parts].
  - intros Hin. right. exists p. split; [apply elem_of_cons; by left | done].
  - rewrite join_cons, !elem_of_app. intros [Hin | [Hin | Hin]].
    + right. exists p. split; [apply elem_of_cons; by left | done].
    + by left.
    + destruct (IH Hin) as [? | (p' & Hp' & ?)]; [by left |].
      right. exists p'. split; [apply elem_of_cons; by right | done].
Qed.

Section HostnameShape.
Context `{UnicodeData}.

Lemma validate_hostname_labels h :
  validate_hostname h = true →
  ∃ leading a b,
    Py.split dot h = leading ++ [a; b] ∧ h = Py.join (py ".") (leading ++ [a; b]) ∧
    ∀ i label, (leading ++ [a; b]) !! i = Some label → label_rules i label.
Proof.
  intros Hvalid. pose proof (validate_hostname_two_parts h Hvalid) as Hlen.
  apply validate_hostname_rules in Hvalid
    as (_ & _ & _ & _ & _ & labels & Hl & _ & Hall).
  apply labels_of_split in Hl as ->.
  destruct (last_two _ Hlen) as (leading & a & b & Hparts).
  exists leading, a, b. rewrite <- Hparts. split; [done |].
  split; [symmetry; apply (join_split dot) | done].
Qed.

Lemma asterisk_not_regular label :
  label ≠ py "*" → label_rules 1 label → asterisk ∉ label.
Proof.
  intros Hne (_ & _ & _ & Hreg) Hin.
  destruct (Hreg Hne) as (_ & _ & Hall).
  destruct (Hall _ Hin) as [Halnum | Heq]; [| done].
  by vm_compute in Halnum.
Qed.

Lemma label_rules_positive i label :
  label_rules (Datatypes.S i) label → label ≠ py "*" ∧ label_rules 1 label.
Proof.
  intros (Hne & Hlen & Hstar & Hreg).
  assert (label ≠ py "*") as Hnot by (intros ->; by specialize (Hstar eq_refl)).
  split; [done |]. split; [done |]. split; [done |].
  split; [by intros -> | done].
Qed.

(** X3.  A hostname that passes validation is made of alphanumeric
    characters, hyphens, dots and asterisks only, and an asterisk can only be
    its first character. *)
Theorem valid_hostname_characters h :
  validate_hostname h = true →
  (∀ c, c ∈ h → isalnum c = true ∨ c = hyphen ∨ c = dot ∨ c = asterisk) ∧
  (∀ i, h !! i = Some asterisk → i = 0%nat).
Proof.
  intros Hvalid.
  destruct (validate_hostname_labels h Hvalid) as (leading & a & b & _ & Hjoin & Hall).
  set (labels := leading ++ [a; b]) in *. split.
  - intros c Hc. rewrite Hjoin in Hc.
    apply elem_of_join in Hc as [Hc | (label & Hlabel & Hc)].
    { right; right; left. apply list_elem_of_singleton in Hc. by rewrite Hc. }
    apply list_elem_of_lookup in Hlabel as [i Hi].
    destruct (Hall i label Hi) as (_ & _ & _ & Hreg).
    destruct (decide (label = py "*")) as [-> | Hne].
    { right; right; right. by apply list_elem_of_singleton in Hc. }
    destruct (Hreg Hne) as (_ & _ & Hchars).
    destruct (Hchars c Hc) as [? | ?]; [by left | right; by left].
  - assert (∃ first rest, labels = first :: rest ∧ rest ≠ [])
      as (first & rest & Hlabels & Hrest).
    { unfold labels. destruct leading as [|l0 leading]; [by exists a, [b] |].
      exists l0, (leading ++ [a; b]). split; [done |]. by destruct leading. }
    rewrite Hlabels in Hall, Hjoin.
    destruct rest as [|second rest]; [done |]. rewrite join_cons in Hjoin.
    assert (asterisk ∉ py "." ++ Py.join (py ".") (second :: rest)) as Htail.
    { intros Hin. apply elem_of_app in Hin as [Hin | Hin].
      { by apply list_elem_of_singleton in Hin. }
      apply elem_of_join in Hin as [Hin | (label & Hlabel & Hin)].
      { by apply list_elem_of_singleton in Hin. }
      apply list_elem_of_lookup in Hlabel as [i Hi].
      specialize (Hall (Datatypes.S i) label Hi).
      apply label_rules_positive in Hall as [Hne Hrules].
      by apply (asterisk_not_regular label). }
    intros i Hi. rewrite Hjoin in Hi.
    apply lookup_app_Some in Hi as [Hi | [_ Hi]].
    + destruct (decide (first = py "*")) as [-> | Hne].
      * destruct i; [done | by destruct i].
      * apply list_elem_of_lookup_2 in Hi.
        pose proof (Hall 0%nat first eq_refl) as (Hne' & Hlen & _ & Hreg).
        destruct (Hreg Hne) as (_ & _ & Hchars).
        destruct (Hchars _ Hi) as [Halnum | Heq]; [by vm_compute in Halnum | done].
    + by apply list_elem_of_lookup_2 in Hi.
Qed.

Lemma hostname_of_zone_and_record_name h :
  validate_hostname h = true →
  let parts := Py.split dot h in
  h = if bool_decide (record_name parts = []) then zone_name parts
      else record_name parts ++ py "." ++ zone_name parts.
Proof.
  intros Hvalid parts.
  destruct (validate_hostname_labels h Hvalid)
    as (leading & a & b & Hparts & Hjoin & Hall).
  unfold parts. rewrite Hparts, zone_name_app, record_name_app.
  destruct leading as [|l0 leading]; [done |].
  rewrite bool_decide_eq_false_2.
  - rewrite Hjoin at 1. by rewrite join_app.
  - pose proof (Hall 0%nat l0 eq_refl) as (Hne & _).
    destruct leading; cbn [Py.join]; [done |]. by destruct l0.
Qed.

(** X4.  A valid hostname is recovered from its zone and record name: it is
    the zone itself when the record name is empty, and the record name, a
    dot and the zone otherwise. *)
Theorem zone_and_record_name_give_hostname h :
  validate_hostname h = true →
  let parts := Py.split dot h in
  h = if bool_decide (record_name parts = []) then zone_name parts
      else record_name parts ++ py "." ++ zone_name parts.
Proof.
  intros Hvalid parts.
  destruct (validate_hostname_labels h Hvalid)
    as (leading & a & b & Hparts & Hjoin & Hall).
  unfold parts. rewrite Hparts, zone_name_app, record_name_app.
  destruct leading as [|l0 leading]; [done |].
  assert (Py.join (py ".") (l0 :: leading) ≠ []) as Hname.
  { pose proof (Hall 0%nat l0 eq_refl) as (Hne & _).
    destruct leading; cbn [Py.join]; [done |]. by destruct l0. }
  rewrite bool_decide_eq_false_2 by done.
  rewrite Hjoin at 1. by rewrite join_app.
Qed.

(** X5.  Two valid hostnames with the same zone and the same record name
    are the same hostname: distinct hostnames never address the same
    record. *)
Theorem zone_and_record_name_injective h1 h2 :
  validate_hostname h1 = true → validate_hostname h2 = true →
  zone_name (Py.split dot h1) = zone_name (Py.split dot h2) →
  record_name (Py.split dot h1) = record_name (Py.split dot h2) →
  h1 = h2.
Proof.
  intros Hv1 Hv2 Hzone Hname.
  rewrite (hostname_of_zone_and_record_name h1 Hv1).
  rewrite (hostname_of_zone_and_record_name h2 Hv2) at 1.
  cbn zeta. by rewrite Hzone, Hname.
Qed.

End HostnameShape.

Lemma valid_hostname_characters_witness :
  isalnum (H:=latin1_only) 101 = true ∨ 101 = hyphen ∨ 101 = dot ∨
  101 = asterisk.
Proof.
  apply (proj1 (valid_hostname_characters (H:=latin1_only)
                  (py "*.example.com") eq_refl) 101).
  apply list_elem_of_lookup. exists 2%nat. reflexivity.
Defined.

Lemma zone_and_record_name_give_hostname_witness :
  py "*.sub.example.com" =
  record_name (Py.split dot (py "*.sub.example.com")) ++ py "." ++
  zone_name (Py.split dot (py "*.sub.example.com")).
Proof.
  apply (zone_and_record_name_give_hostname (H:=latin1_only)
           (py "*.sub.example.com")).
  vm_compute; reflexivity.
Defined.

Lemma zone_and_record_name_injective_witness :
  py "api.example.com" = py "api.example.com".
Proof.
  apply (zone_and_record_name_injective (H:=latin1_only)
           (py "api.example.com") (py "api.example.com"));
    vm_compute; reflexivity.
Defined.

(** ** More on address discovery *)

Lemma split_ws_aux_no_space s : ∀ cur,
  Forall (λ c, Py.isspace c = false) cur →
  Forall (λ token, Forall (λ c, Py.isspace c = false) token)
    (Py.split_ws_aux cur s).
Proof.
  induction s as [|c s IH]; intros cur Hcur; cbn [Py.split_ws_aux].
  - destruct cur; repeat constructor. by apply Forall_reverse.
  - destruct (Py.isspace c) eqn:Hc.
    + destruct cur as [|c' cur]; [by apply IH |].
      constructor; [by apply Forall_reverse | by apply IH].
    + apply IH. by constructor.
Qed.

Lemma split_elem sep s part c : part ∈ Py.split sep s → c ∈ part → c ∈ s.
Proof.
  revert part. induction s as [|c0 s IH]; intros part; cbn [Py.split].
  - intros Hin%list_elem_of_singleton Hc. by subst.
  - destruct (c0 =? sep).
    + intros [-> | Hin]%elem_of_cons Hc; [by apply elem_of_nil in Hc |].
      apply elem_of_cons. right. by apply (IH part).
    + pose proof (split_nonempty sep s) as Hne.
      destruct (Py.split sep s) as [|p parts]; [done |].
      intros [-> | Hin]%elem_of_cons Hc; apply elem_of_cons.
      * apply elem_of_cons in Hc as [-> | Hc]; [by left |].
        right. apply (IH p); [apply elem_of_cons; by left | done].
      * right. apply (IH part); [apply elem_of_cons; by right | done].
Qed.

Lemma scan_route_no_space lines ip :
  scan_route lines = RouteFound ip → Forall (λ c, Py.isspace c = false) ip.
Proof.
  induction lines as [|line lines IH]; cbn [scan_route]; [done |].
  destruct (Py.contains _ line); [| exact IH].
  destruct (Py.index _ _) as [src_index|]; [| done].
  destruct (_ !! _) as [ip'|] eqn:Hip; [| exact IH].
  destruct (not_loopback_or_link_local ip'); [| exact IH].
  intros [= <-]. apply list_elem_of_lookup_2 in Hip.
  by apply (proj1 (Forall_forall _ _)
              (split_ws_aux_no_space line [] (Forall_nil_2 _))) in Hip.
Qed.

Lemma scan_addr_no_space lines ip :
  scan_addr lines = Some ip → Forall (λ c, Py.isspace c = false) ip.
Proof.
  induction lines as [|line lines IH]; cbn [scan_addr]; [done |].
  destruct (_ && _); [| exact IH].
  destruct (Py.split_ws (Py.strip line)) as [|p0 [|p1 parts]] eqn:Htokens;
    [exact IH | exact IH |].
  destruct (not_loopback_or_link_local
              (default [] (head (Py.split slash p1)))); [| exact IH].
  intros [= <-].
  assert (Forall (λ c, Py.isspace c = false) p1) as Hp1.
  { pose proof (split_ws_aux_no_space (Py.strip line) [] (Forall_nil_2 _))
      as Hall. fold (Py.split_ws (Py.strip line)) in Hall.
    rewrite Htokens in Hall.
    apply Forall_cons in Hall as [_ Hall]. by apply Forall_cons in Hall as [? _]. }
  destruct (Py.split slash p1) as [|q qs] eqn:Hsplit; [constructor |].
  apply Forall_forall. intros c Hc.
  apply (proj1 (Forall_forall _ _) Hp1).
  apply (split_elem slash p1 q); [| done]. rewrite Hsplit.
  apply elem_of_cons. by left.
Qed.

(** X6.  The address taken from [ip addr show] has its prefix length cut
    off: it holds no ['/'].  It holds no whitespace either, and it is not a
    loopback or link-local address. *)
Theorem scan_addr_result lines ip :
  scan_addr lines = Some ip →
  (slash ∉ ip) ∧ Forall (λ c, Py.isspace c = false) ip ∧
  not_loopback_or_link_local ip = true.
Proof.
  intros Hscan.
  split; [| split; [by eapply scan_addr_no_space | by eapply scan_addr_qualifies]].
  revert Hscan.
  induction lines as [|line lines IH]; cbn [scan_addr]; [done |].
  destruct (_ && _); [| exact IH].
  destruct (Py.split_ws (Py.strip line)) as [|p0 [|p1 parts]];
    [exact IH | exact IH |].
  destruct (not_loopback_or_link_local
              (default [] (head (Py.split slash p1)))); [| exact IH].
  intros [= <-]. pose proof (split_sep_free slash p1) as Hfree.
  destruct (Py.split slash p1) as [|q qs]; [apply not_elem_of_nil |].
  by apply Forall_cons in Hfree as [? _].
Qed.

Lemma scan_addr_result_witness :
  (slash ∉ py "192.168.1.5") ∧ Forall (λ c, Py.isspace c = false) (py "192.168.1.5") ∧
  not_loopback_or_link_local (py "192.168.1.5") = true.
Proof.
  apply (scan_addr_result (Py.split newline addr_show_output)).
  vm_compute; reflexivity.
Defined.

Lemma scan_ifconfig_no_space lines : ∀ current_interface ip,
  scan_ifconfig current_interface lines = Some ip →
  Forall (λ c, Py.isspace c = false) ip.
Proof.
  induction lines as [|line lines IH]; intros current_interface ip;
    cbn [scan_ifconfig]; [done |].
  destruct (Py.startswith (Py.strip line) (py "en")); [apply IH |].
  destruct (_ && _); [| apply IH].
  destruct (Py.split_ws (Py.strip line)) as [|p0 [|p1 parts]] eqn:Htokens;
    [apply IH | apply IH |].
  destruct (not_loopback_or_link_local p1); [| apply IH].
  intros [= <-].
  pose proof (split_ws_aux_no_space (Py.strip line) [] (Forall_nil_2 _)) as Hall.
  fold (Py.split_ws (Py.strip line)) in Hall. rewrite Htokens in Hall.
  apply Forall_cons in Hall as [_ Hall]. by apply Forall_cons in Hall as [? _].
Qed.

(** X7.  Whatever the platform answers, an address that discovery returns is
    not empty, does not start with [127.] or [169.254.], and holds no
    whitespace. *)
Theorem discovered_address_shape os ip :
  fst (get_ethernet_ip os) = Some ip →
  ip ≠ [] ∧ not_loopback_or_link_local ip = true ∧
  Forall (λ c, Py.isspace c = false) ip.
Proof.
  intros Hfound.
  destruct (get_ethernet_ip_qualifies os ip Hfound) as [Hne Hok].
  split; [done |]. split; [done |]. revert Hfound. unfold get_ethernet_ip.
  destruct (get_ip_linux os) as [linux ran] eqn:Hlinux.
  destruct (truthy linux).
  - cbn. intros ->. unfold get_ip_linux in Hlinux.
    destruct (os IpRouteGet); [| done].
    destruct (scan_route _) eqn:Hscan; try done.
    + injection Hlinux as <- _. by apply scan_route_no_space in Hscan.
    + destruct (os IpAddrShow); [| done]. injection Hlinux as Hscan' _.
      by apply scan_addr_no_space in Hscan'.
  - destruct (get_ip_macos os) as [macos ran'] eqn:Hmacos.
    destruct (truthy macos); [| done]. cbn. intros ->.
    unfold get_ip_macos in Hmacos. destruct (os Ifconfig); [| done].
    injection Hmacos as Hscan _. by apply scan_ifconfig_no_space in Hscan.
Qed.

Lemma discovered_address_shape_witness :
  py "192.168.1.5" ≠ [] ∧ not_loopback_or_link_local (py "192.168.1.5") = true ∧
  Forall (λ c, Py.isspace c = false) (py "192.168.1.5").
Proof.
  apply (discovered_address_shape loopback_route).
  vm_compute; reflexivity.
Defined.

(** X8.  Discovery runs [ip route get] first and each command at most once:
    the commands run are one of four sequences.  [ifconfig] is run exactly
    when [get_ip_linux] gave no non-empty address; otherwise the result of
    [get_ip_linux] is the result of discovery. *)
Theorem discovery_commands os :
  (snd (get_ethernet_ip os) = [IpRouteGet] ∨
   snd (get_ethernet_ip os) = [IpRouteGet; IpAddrShow] ∨
   snd (get_ethernet_ip os) = [IpRouteGet; Ifconfig] ∨
   snd (get_ethernet_ip os) = [IpRouteGet; IpAddrShow; Ifconfig]) ∧
  (Ifconfig ∈ snd (get_ethernet_ip os) ↔ truthy (fst (get_ip_linux os)) = false) ∧
  (truthy (fst (get_ip_linux os)) = true → get_ethernet_ip os = get_ip_linux os).
Proof.
  assert (snd (get_ip_linux os) = [IpRouteGet] ∨
          snd (get_ip_linux os) = [IpRouteGet; IpAddrShow]) as Hran.
  { unfold get_ip_linux. destruct (os IpRouteGet); [| by left].
    destruct (scan_route _); [by left | | by left].
    destruct (os IpAddrShow); by right. }
  assert (snd (get_ip_macos os) = [Ifconfig]) as Hran'.
  { unfold get_ip_macos. by destruct (os Ifconfig). }
  unfold get_ethernet_ip.
  destruct (get_ip_linux os) as [linux ran]. cbn [fst snd] in *.
  destruct (truthy linux).
  - cbn [snd]. split; [destruct Hran as [-> | ->]; auto |].
    split; [| done]. split; [| done].
    destruct Hran as [-> | ->]; intros Hin;
      repeat (apply elem_of_cons in Hin as [? | Hin]; [done |]);
      by apply elem_of_nil in Hin.
  - destruct (get_ip_macos os) as [macos ran']. cbn [snd] in Hran'. subst ran'.
    assert (snd (if truthy macos then (macos, ran ++ [Ifconfig])
                 else (None, ran ++ [Ifconfig])) = ran ++ [Ifconfig]) as ->
      by by destruct (truthy macos).
    split; [destruct Hran as [-> | ->]; auto |].
    split; [| done]. split; [done |]. intros _.
    apply elem_of_app. right. apply elem_of_cons. by left.
Qed.

(** X9.  In the output of [ifconfig], the lines that come before the first
    line starting with [en] are ignored: an address is only taken once such
    an interface line has been seen, and without one the scan finds
    nothing. *)
Theorem scan_ifconfig_before_ethernet before lines :
  Forall (λ line, Py.startswith (Py.strip line) (py "en") = false) before →
  scan_ifconfig None (before ++ lines) = scan_ifconfig None lines ∧
  scan_ifconfig None before = None.
Proof.
  induction 1 as [|line before Hline _ [IH IH']]; [done |].
  cbn [app scan_ifconfig]. rewrite Hline, andb_false_r. done.
Qed.

Lemma scan_ifconfig_before_ethernet_witness :
  scan_ifconfig None [py "lo0: flags=8049<UP,LOOPBACK>";
                      py "    inet 10.1.2.3 netmask 0xff000000"] = None.
Proof.
  apply (scan_ifconfig_before_ethernet
           [py "lo0: flags=8049<UP,LOOPBACK>";
            py "    inet 10.1.2.3 netmask 0xff000000"] []).
  repeat constructor.
Defined.

(** ** More on the engine, over any client *)

Lemma existing_record_none name records :
  existing_record name records = None ↔
  Forall (λ r, ¬ address_record name r) records.
Proof.
  unfold address_record.
  induction records as [|r records IH]; cbn [existing_record]; [done |].
  rewrite Forall_cons.
  destruct (bool_decide_reflect (r_type r = py "A")) as [Htype | Htype];
    [destruct (bool_decide_reflect (r_name r = name)) as [Hname | Hname] |];
    cbn [andb].
  - split; [done |]. intros [Hno _]. by destruct Hno.
  - rewrite IH. split; [| by intros [_ ?]]. intros Hrest. split; [| done].
    by intros [_ ?].
  - rewrite IH. split; [| by intros [_ ?]]. intros Hrest. split; [| done].
    by intros [? _].
Qed.

Section EngineRuns.
Context `{UnicodeData} {S : Type} `{ZoneRecordStore S}.

(** The run of [process_hostname], branch by branch. *)
Lemma process_hostname_run account h ip (s : S) :
  let run := process_hostname account h ip s in
  let zone := zone_name (Py.split dot h) in
  let name := record_name (Py.split dot h) in
  (validate_hostname h = false ∧ run = (Failed InvalidHostname, s, [])) ∨
  (validate_hostname h = true ∧
   ∃ listing s1,
     list_records account zone s = (listing, s1) ∧
     match listing with
     | None => run = (Failed ZoneReadError, s1, [ListRecords account zone])
     | Some records =>
         match existing_record name records with
         | Some r =>
             if bool_decide (r_content r = ip)
             then run = (Unchanged, s1, [ListRecords account zone])
             else if validate_ip_address ip
             then ∃ answer s2,
                 update_record account zone (r_id r) ip 300 s1 = (answer, s2) ∧
                 run = (match answer with
                        | Some _ => Updated
                        | None => Failed UpdateError
                        end, s2,
                        [ListRecords account zone;
                         UpdateRecord account zone (r_id r) ip 300])
             else run = (Failed UpdateError, s1, [ListRecords account zone])
         | None =>
             if validate_ip_address ip
             then ∃ answer s2,
                 create_record account zone name (py "A") ip 300 s1
                   = (answer, s2) ∧
                 run = (match answer with
                        | Some _ => Created
                        | None => Failed CreateError
                        end, s2,
                        [ListRecords account zone;
                         CreateRecord account zone name (py "A") ip 300])
             else run = (Failed CreateError, s1, [ListRecords account zone])
         end
     end).
Proof.
  cbn zeta. unfold process_hostname.
  destruct (validate_hostname h) eqn:Hvalid; cbn [negb]; [right | by left].
  split; [done |].
  pose proof (validate_hostname_two_parts h Hvalid) as Hlen.
  destruct (Nat.ltb_spec (length (Py.split dot h)) 2); [lia |].
  unfold bind, get_existing_dns_records, invoke.
  destruct (list_records account _ s) as [listing s1].
  exists listing, s1. split; [done |].
  destruct listing as [records|]; [| done].
  destruct (existing_record _ records) as [r|].
  - destruct (bool_decide (r_content r = ip)); [done |].
    unfold update_dns_record. destruct (validate_ip_address ip); cbn [negb];
      [| done].
    unfold invoke. destruct (update_record _ _ _ _ _ s1) as [answer s2].
    exists answer, s2. split; [done |]. by destruct answer.
  - unfold create_dns_record. destruct (validate_ip_address ip); cbn [negb];
      [| done].
    unfold invoke. destruct (create_record _ _ _ _ _ _ s1) as [answer s2].
    exists answer, s2. split; [done |]. by destruct answer.
Qed.

(** X10.  [process_hostname] fails a hostname as invalid exactly when
    [validate_hostname] rejects it, and then it makes no call at all and
    leaves the service as it was. *)
Theorem invalid_hostname_is_not_looked_up account h ip (s : S) :
  (value (process_hostname account h ip s) = Failed InvalidHostname ↔
   validate_hostname h = false) ∧
  (validate_hostname h = false →
   process_hostname account h ip s = (Failed InvalidHostname, s, [])).
Proof.
  pose proof (process_hostname_run account h ip s) as Hrun. cbn zeta in Hrun.
  destruct Hrun as [[Hvalid ->] | (Hvalid & listing & s1 & _ & Hrun)].
  { by split. }
  rewrite Hvalid. split; [| done]. split; [| done].
  destruct listing as [records|]; [| by rewrite Hrun].
  destruct (existing_record _ records) as [r|].
  - destruct (bool_decide _); [by rewrite Hrun |].
    destruct (validate_ip_address ip); [| by rewrite Hrun].
    destruct Hrun as (answer & s2 & _ & ->). by destruct answer.
  - destruct (validate_ip_address ip); [| by rewrite Hrun].
    destruct Hrun as (answer & s2 & _ & ->). by destruct answer.
Qed.

(** X11.  The calls that [process_hostname] makes for one hostname, by
    outcome: nothing for an invalid hostname; otherwise one listing of the
    hostname's zone, followed by at most one write in that zone, which is an
    update with the target address and a TTL of 300 or the creation of an
    ['A'] record with the derived name, the target address and a TTL of
    300. *)
Theorem process_hostname_call_shape account h ip (s : S) :
  let run := process_hostname account h ip s in
  let zone := zone_name (Py.split dot h) in
  let name := record_name (Py.split dot h) in
  let listing := ListRecords account zone in
  let creation := CreateRecord account zone name (py "A") ip 300 in
  match value run with
  | Unchanged => calls run = [listing]
  | Updated =>
      ∃ record_id,
        calls run = [listing; UpdateRecord account zone record_id ip 300]
  | Created => calls run = [listing; creation]
  | Failed InvalidHostname => calls run = []
  | Failed ZoneReadError => calls run = [listing]
  | Failed UpdateError =>
      calls run = [listing] ∨
      ∃ record_id,
        calls run = [listing; UpdateRecord account zone record_id ip 300]
  | Failed CreateError => calls run = [listing] ∨ calls run = [listing; creation]
  end.
Proof.
  pose proof (process_hostname_run account h ip s) as Hrun. cbn zeta in *.
  destruct Hrun as [[Hvalid ->] | (Hvalid & listing & s1 & _ & Hrun)]; [done |].
  destruct listing as [records|]; [| by rewrite Hrun].
  destruct (existing_record _ records) as [r|].
  - destruct (bool_decide _); [by rewrite Hrun |].
    destruct (validate_ip_address ip); [| rewrite Hrun; by left].
    destruct Hrun as (answer & s2 & _ & ->).
    destruct answer; cbn; [by exists (r_id r) | right; by exists (r_id r)].
  - destruct (validate_ip_address ip); [| rewrite Hrun; by left].
    destruct Hrun as (answer & s2 & _ & ->). destruct answer; cbn; [done | by right].
Qed.

(** X12.  Every write follows from what the listing showed.  A creation is
    only sent when the listing of the zone held no ['A'] record with the
    derived name, so no second record is created for a name that the listing
    shows.  An update is only sent for the first ['A'] record that the
    listing holds for that name, and only when its content differs from the
    target address. *)
Theorem writes_follow_the_listing account h ip (s : S) :
  let run := process_hostname account h ip s in
  let zone := zone_name (Py.split dot h) in
  let name := record_name (Py.split dot h) in
  (∀ a z n t c ttl, CreateRecord a z n t c ttl ∈ calls run →
     ∃ records s1,
       list_records account zone s = (Some records, s1) ∧
       Forall (λ r, ¬ address_record name r) records) ∧
  (∀ a z record_id c ttl, UpdateRecord a z record_id c ttl ∈ calls run →
     ∃ records s1 r,
       list_records account zone s = (Some records, s1) ∧
       first_address_record name records r ∧
       r_id r = record_id ∧ r_content r ≠ ip).
Proof.
  pose proof (process_hostname_run account h ip s) as Hrun. cbn zeta in *.
  destruct Hrun as [[Hvalid ->] | (Hvalid & listing & s1 & Hlist & Hrun)].
  { split; [intros a z n t c ttl Hin | intros a z record_id c ttl Hin];
      by apply elem_of_nil in Hin. }
  assert (∀ o, process_hostname account h ip s =
                 (o, s1, [ListRecords account (zone_name (Py.split dot h))]) →
          (∀ a z n t c ttl,
             CreateRecord a z n t c ttl ∉
               calls (process_hostname account h ip s)) ∧
          (∀ a z record_id c ttl,
             UpdateRecord a z record_id c ttl ∉
               calls (process_hostname account h ip s))) as Hread.
  { intros o ->. unfold calls. cbn [snd].
    split; intros; by intros Hin%list_elem_of_singleton. }
  assert (∀ o, process_hostname account h ip s =
                 (o, s1, [ListRecords account (zone_name (Py.split dot h))]) →
          (∀ a z n t c ttl,
             CreateRecord a z n t c ttl ∈
               calls (process_hostname account h ip s) →
             ∃ records s1,
               list_records account (zone_name (Py.split dot h)) s
                 = (Some records, s1) ∧
               Forall (λ r, ¬ address_record
                                (record_name (Py.split dot h)) r) records) ∧
          (∀ a z record_id c ttl,
             UpdateRecord a z record_id c ttl ∈
               calls (process_hostname account h ip s) →
             ∃ records s1 r,
               list_records account (zone_name (Py.split dot h)) s
                 = (Some records, s1) ∧
               first_address_record (record_name (Py.split dot h)) records r ∧
               r_id r = record_id ∧ r_content r ≠ ip)) as Hquiet.
  { intros o Ho. destruct (Hread o Ho) as [Hc Hu].
    split; intros; [by destruct (Hc a z n t c ttl) | by destruct (Hu a z record_id c ttl)]. }
  destruct listing as [records|]; [| by apply (Hquiet (Failed ZoneReadError))].
  destruct (existing_record _ records) as [r|] eqn:Hfirst.
  - destruct (bool_decide_reflect (r_content r = ip)) as [Hcontent | Hcontent];
      [by apply (Hquiet Unchanged) |].
    destruct (validate_ip_address ip); [| by apply (Hquiet (Failed UpdateError))].
    destruct Hrun as (answer & s2 & _ & ->). unfold calls. cbn [snd]. split.
    + intros a z n t c ttl Hin.
      apply elem_of_cons in Hin as [? | Hin]; [done |].
      by apply list_elem_of_singleton in Hin.
    + intros a z record_id c ttl Hin.
      apply elem_of_cons in Hin as [? | Hin]; [done |].
      apply list_elem_of_singleton in Hin. injection Hin as -> -> -> -> ->.
      exists records, s1, r. split; [done |].
      split; [by apply existing_record_first | done].
  - destruct (validate_ip_address ip); [| by apply (Hquiet (Failed CreateError))].
    destruct Hrun as (answer & s2 & _ & ->). unfold calls. cbn [snd]. split.
    + intros a z n t c ttl _. exists records, s1. split; [done |].
      by apply existing_record_none.
    + intros a z record_id c ttl Hin.
      apply elem_of_cons in Hin as [? | Hin]; [done |].
      by apply list_elem_of_singleton in Hin.
Qed.

Lemma process_hostname_bad_address account h ip (s : S) :
  validate_ip_address ip = false →
  Forall listing_call (calls (process_hostname account h ip s)) ∧
  value (process_hostname account h ip s) ≠ Created ∧
  value (process_hostname account h ip s) ≠ Updated.
Proof.
  intros Hip. pose proof (process_hostname_run account h ip s) as Hrun.
  cbn zeta in Hrun. rewrite Hip in Hrun.
  destruct Hrun as [[Hvalid ->] | (Hvalid & listing & s1 & _ & Hrun)];
    [by repeat constructor |].
  destruct listing as [records|]; [| rewrite Hrun; by repeat constructor].
  destruct (existing_record _ records) as [r|];
    [destruct (bool_decide _) |]; rewrite Hrun; by repeat constructor.
Qed.

(** X13.  With a target address that [validate_ip_address] rejects, the
    whole run only reads: every call is a listing, and no hostname comes out
    created or updated. *)
Theorem malformed_address_never_writes account hostnames ip n (s : S) :
  validate_ip_address ip = false →
  let run := process_hostnames account ip hostnames n s in
  Forall listing_call (calls run) ∧
  Forall (λ r, r.1 ≠ Created ∧ r.1 ≠ Updated) (value run).2.
Proof.
  intros Hip. revert n s.
  induction hostnames as [|h hostnames IH]; intros n s; [by split |].
  cbn zeta. rewrite process_hostnames_cons. cbn [value calls fst snd].
  destruct (process_hostname_bad_address account h ip s Hip) as (Hcalls & Hc & Hu).
  destruct (IH (if succeeded (value (process_hostname account h ip s))
                then Datatypes.S n else n)
              (final (process_hostname account h ip s))) as [IHcalls IHreports].
  split; [by apply Forall_app | by constructor].
Qed.

(** X14.  Processing a list of hostnames is processing a first part and
    then the rest from where the first part ended: the count carries over,
    the reports and the logs are appended in order. *)
Theorem process_hostnames_app account ip l1 l2 n (s : S) :
  let first := process_hostnames account ip l1 n s in
  let rest := process_hostnames account ip l2 (value first).1 (final first) in
  process_hostnames account ip (l1 ++ l2) n s =
    (((value rest).1, (value first).2 ++ (value rest).2),
     final rest, calls first ++ calls rest).
Proof.
  revert n s. induction l1 as [|h l1 IH]; intros n s.
  - cbn. by destruct (process_hostnames account ip l2 n s) as [[[count reports] s'] log].
  - cbn zeta. change ((h :: l1) ++ l2) with (h :: (l1 ++ l2)).
    rewrite !process_hostnames_cons. cbn [value final calls fst snd].
    rewrite IH. cbn [value final calls fst snd]. by rewrite app_assoc.
Qed.

End EngineRuns.

Lemma malformed_address_never_writes_witness :
  Forall listing_call
    (calls (process_hostnames (H:=latin1_only) 1 (py "999.1.1.1")
              [py "api.example.com"; py "example.com"] 0 sample_service)).
Proof.
  apply (malformed_address_never_writes (H:=latin1_only) 1
           [py "api.example.com"; py "example.com"] (py "999.1.1.1") 0
           sample_service).
  vm_compute; reflexivity.
Defined.

(** ** More on the batch *)

Section BatchRuns.
Context `{UnicodeData} {S : Type} `{ZoneRecordStore S}.

Lemma process_hostname_at_most_two_calls account h ip (s : S) :
  (length (calls (process_hostname account h ip s)) ≤ 2)%nat.
Proof.
  pose proof (process_hostname_run account h ip s) as Hrun. cbn zeta in Hrun.
  destruct Hrun as [[_ ->] | (_ & listing & s1 & _ & Hrun)]; [cbn; lia |].
  destruct listing as [records|]; [| rewrite Hrun; cbn; lia].
  destruct (existing_record _ records) as [r|].
  - destruct (bool_decide _); [rewrite Hrun; cbn; lia |].
    destruct (validate_ip_address ip); [| rewrite Hrun; cbn; lia].
    destruct Hrun as (answer & s2 & _ & ->). cbn. lia.
  - destruct (validate_ip_address ip); [| rewrite Hrun; cbn; lia].
    destruct Hrun as (answer & s2 & _ & ->). cbn. lia.
Qed.

(** X15.  Over a batch, the success count starts from the given count and
    grows by at most one per hostname; the log of the batch is the logs of
    its hostnames one after the other, at most two calls per hostname. *)
Theorem batch_counts account ip hostnames n (s : S) :
  let run := process_hostnames account ip hostnames n s in
  (n ≤ (value run).1 ≤ n + length hostnames)%nat ∧
  calls run = concat ((value run).2.*2) ∧
  (length (calls run) ≤ 2 * length hostnames)%nat.
Proof.
  cbn zeta. split; [| split; [apply process_hostnames_calls |]].
  - rewrite process_hostnames_count.
    pose proof (length_filter (λ r : outcome * list call, succeeded r.1 = true)
                  (value (process_hostnames account ip hostnames n s)).2) as Hle.
    rewrite process_hostnames_length in Hle. lia.
  - revert n s. induction hostnames as [|h hostnames IH]; intros n s; [cbn; lia |].
    rewrite process_hostnames_cons. cbn [calls snd]. rewrite length_app.
    pose proof (process_hostname_at_most_two_calls account h ip s) as Hh.
    specialize (IH (if succeeded (value (process_hostname account h ip s))
                    then Datatypes.S n else n)
                  (final (process_hostname account h ip s))).
    unfold calls in *. cbn [length]. lia.
Qed.





End BatchRuns.



(** ** More on the engine against the service that keeps what it is told *)

Lemma record_kept_refl ip r : record_kept ip r r.
Proof. repeat split; by left. Qed.

Lemma record_kept_trans ip r1 r2 r3 :
  record_kept ip r1 r2 → record_kept ip r2 r3 → record_kept ip r1 r3.
Proof.
  intros (Hid & Htype & Hname & Hcontent & Httl)
         (Hid' & Htype' & Hname' & Hcontent' & Httl').
  split; [congruence |]. split; [congruence |]. split; [congruence |]. split.
  - destruct Hcontent' as [-> | ->]; [done | by right].
  - destruct Httl' as [-> | ->]; [done | by right].
Qed.

Lemma record_added_kept ip r r' :
  record_added ip r → record_kept ip r r' → record_added ip r'.
Proof.
  intros (Htype & Hcontent & Httl) (_ & Htype' & _ & Hcontent' & Httl').
  split; [congruence |]. split.
  - destruct Hcontent' as [-> | ->]; done.
  - destruct Httl' as [-> | ->]; done.
Qed.

Lemma records_kept_refl ip records : records_kept ip records records.
Proof.
  exists records, []. rewrite app_nil_r. split; [done |]. split; [| done].
  apply Forall2_same_length_lookup. split; [done |].
  intros i r r' Hr Hr'. rewrite Hr in Hr'. injection Hr' as <-.
  apply record_kept_refl.
Qed.

Lemma records_kept_trans ip l1 l2 l3 :
  records_kept ip l1 l2 → records_kept ip l2 l3 → records_kept ip l1 l3.
Proof.
  intros (kept & added & -> & Hkept & Hadded)
         (kept' & added' & -> & Hkept' & Hadded').
  apply Forall2_app_inv_l in Hkept' as (k1 & k2 & Hk1 & Hk2 & ->).
  exists k1, (k2 ++ added'). rewrite app_assoc. split; [done |]. split.
  - clear Hk2 Hadded. revert k1 Hk1.
    induction Hkept as [|r r' l l' Hr _ IH]; intros k1 Hk1.
    + apply Forall2_nil_inv_l in Hk1 as ->. constructor.
    + apply Forall2_cons_inv_l in Hk1 as (r'' & k1' & Hr' & Hk1' & ->).
      constructor; [by eapply record_kept_trans | by apply IH].
  - apply Forall_app. split; [| done].
    clear Hk1 Hkept. revert k2 Hk2.
    induction Hadded as [|r added Hr _ IH]; intros k2 Hk2.
    + apply Forall2_nil_inv_l in Hk2 as ->. constructor.
    + apply Forall2_cons_inv_l in Hk2 as (r' & k2' & Hr' & Hk2' & ->).
      constructor; [by eapply record_added_kept | by apply IH].
Qed.

Lemma service_kept_refl ip s : service_kept ip s s.
Proof.
  intros key. destruct (zones s !! key); [apply records_kept_refl | done].
Qed.

Lemma service_kept_trans ip s1 s2 s3 :
  service_kept ip s1 s2 → service_kept ip s2 s3 → service_kept ip s1 s3.
Proof.
  intros H12 H23 key. specialize (H12 key). specialize (H23 key).
  destruct (zones s1 !! key), (zones s2 !! key), (zones s3 !! key); try done.
  by eapply records_kept_trans.
Qed.

Lemma service_kept_insert ip s key records records' n :
  zones s !! key = Some records → records_kept ip records records' →
  service_kept ip s {| zones := <[key := records']> (zones s); next_id := n |}.
Proof.
  intros Hzone Hkept key'. cbn [zones].
  destruct (decide (key = key')) as [<- | Hne].
  - by rewrite Hzone, lookup_insert_eq.
  - rewrite lookup_insert_ne by done.
    destruct (zones s !! key'); [apply records_kept_refl | done].
Qed.

Lemma apply_update_kept ip record_id records :
  Forall2 (record_kept ip) records (apply_update record_id ip 300 <$> records).
Proof.
  induction records as [|r records IH]; constructor; [| done].
  unfold record_kept, apply_update.
  destruct (bool_decide (r_id r = record_id)); cbn;
    repeat split; (by left) || (by right).
Qed.

Lemma service_update_kept account zone record_id ip s answer s' :
  service_update account zone record_id ip 300 s = (answer, s') →
  service_kept ip s s'.
Proof.
  unfold service_update.
  destruct (zones s !! (account, zone)) as [records|] eqn:Hzone;
    [| intros [= _ <-]; apply service_kept_refl].
  destruct (find _ records); [| intros [= _ <-]; apply service_kept_refl].
  intros [= _ <-]. apply service_kept_insert with (records := records); [done |].
  exists (apply_update record_id ip 300 <$> records), [].
  rewrite app_nil_r. split; [done |]. split; [apply apply_update_kept | done].
Qed.

Lemma service_create_kept account zone name ip s answer s' :
  service_create account zone name (py "A") ip 300 s = (answer, s') →
  service_kept ip s s'.
Proof.
  unfold service_create.
  destruct (zones s !! (account, zone)) as [records|] eqn:Hzone;
    [| intros [= _ <-]; apply service_kept_refl].
  intros [= _ <-]. apply service_kept_insert with (records := records); [done |].
  eexists records, [_]. split; [done |]. split; [| by repeat constructor].
  destruct (records_kept_refl ip records) as (kept & added & Heq & Hkept & _).
  apply Forall2_same_length_lookup. split; [done |].
  intros i r r' Hr Hr'. rewrite Hr in Hr'. injection Hr' as <-.
  apply record_kept_refl.
Qed.

Section ServiceRuns.
Context `{UnicodeData}.

(** The run of [process_hostname] on the service, with the service's own
    answers filled in. *)
Lemma process_hostname_on_service account h ip (s : service) :
  let run := process_hostname account h ip s in
  let zone := zone_name (Py.split dot h) in
  let name := record_name (Py.split dot h) in
  (validate_hostname h = false ∧ run = (Failed InvalidHostname, s, [])) ∨
  (validate_hostname h = true ∧
   match zones s !! (account, zone) with
   | None => run = (Failed ZoneReadError, s, [ListRecords account zone])
   | Some records =>
       match existing_record name records with
       | Some r =>
           if bool_decide (r_content r = ip)
           then run = (Unchanged, s, [ListRecords account zone])
           else if validate_ip_address ip
           then ∃ r',
               run = (Updated,
                      {| zones := <[(account, zone) :=
                                     apply_update (r_id r) ip 300 <$> records]>
                                  (zones s);
                         next_id := next_id s |},
                      [ListRecords account zone;
                       UpdateRecord account zone (r_id r) ip 300]) ∧
               service_update account zone (r_id r) ip 300 s = (Some r', final run)
           else run = (Failed UpdateError, s, [ListRecords account zone])
       | None =>
           if validate_ip_address ip
           then ∃ r',
               run = (Created,
                      {| zones := <[(account, zone) := records ++ [r']]> (zones s);
                         next_id := next_id s + 1 |},
                      [ListRecords account zone;
                       CreateRecord account zone name (py "A") ip 300]) ∧
               r' = {| r_id := next_id s; r_type := py "A"; r_name := name;
                       r_content := ip; r_ttl := 300 |} ∧
               service_create account zone name (py "A") ip 300 s
                 = (Some r', final run)
           else run = (Failed CreateError, s, [ListRecords account zone])
       end
   end).
Proof.
  pose proof (process_hostname_run account h ip s) as Hrun. cbn zeta in *.
  destruct Hrun as [Hinvalid | (Hvalid & listing & s1 & Hlist & Hrun)];
    [by left | right].
  split; [done |]. cbn [list_records service_store] in Hlist.
  unfold service_list in Hlist. injection Hlist as <- <-.
  destruct (zones s !! _) as [records|] eqn:Hzone; [| done].
  destruct (existing_record _ records) as [r|] eqn:Hfirst.
  - destruct (bool_decide (r_content r = ip)); [done |].
    destruct (validate_ip_address ip); [| done].
    destruct Hrun as (answer & s2 & Hupdate & ->).
    cbn [update_record service_store] in Hupdate.
    pose proof Hupdate as Hupdate'.
    unfold service_update in Hupdate. rewrite Hzone in Hupdate.
    destruct (find_id (r_id r) records) as [found Hfound].
    { exists r. split; [by apply existing_record_elem in Hfirst | done]. }
    rewrite Hfound in Hupdate. injection Hupdate as <- <-.
    eexists. split; [done |]. unfold final. cbn [fst snd].
    unfold service_update. by rewrite Hzone, Hfound.
  - destruct (validate_ip_address ip); [| done].
    destruct Hrun as (answer & s2 & Hcreate & ->).
    cbn [create_record service_store] in Hcreate.
    unfold service_create in Hcreate. rewrite Hzone in Hcreate.
    injection Hcreate as <- <-.
    eexists. split; [done |]. split; [done |]. unfold final. cbn [fst snd].
    unfold service_create. by rewrite Hzone.
Qed.

Lemma process_hostname_kept account h ip (s : service) :
  service_kept ip s (final (process_hostname account h ip s)).
Proof.
  pose proof (process_hostname_on_service account h ip s) as Hrun.
  cbn zeta in Hrun.
  destruct Hrun as [[_ ->] | (_ & Hrun)]; [apply service_kept_refl |].
  destruct (zones s !! _) as [records|]; [| rewrite Hrun; apply service_kept_refl].
  destruct (existing_record _ records) as [r|].
  - destruct (bool_decide _); [rewrite Hrun; apply service_kept_refl |].
    destruct (validate_ip_address ip); [| rewrite Hrun; apply service_kept_refl].
    destruct Hrun as (r' & _ & Hupdate). by eapply service_update_kept.
  - destruct (validate_ip_address ip); [| rewrite Hrun; apply service_kept_refl].
    destruct Hrun as (r' & _ & _ & Hcreate). by eapply service_create_kept.
Qed.

(** X18.  Over a whole run against the service, no zone appears or
    disappears and no record is removed, reordered, renamed or given another
    type or identifier: every record keeps its place, its content is
    unchanged or becomes the target address, its TTL is unchanged or becomes
    300, and the records added after it are ['A'] records with the target
    address and a TTL of 300. *)
Theorem run_keeps_the_service account ip hostnames n (s : service) :
  service_kept ip s (final (process_hostnames account ip hostnames n s)).
Proof.
  revert n s. induction hostnames as [|h hostnames IH]; intros n s.
  - apply service_kept_refl.
  - rewrite process_hostnames_cons. cbn [final fst snd].
    eapply service_kept_trans; [apply process_hostname_kept | apply IH].
Qed.

(** X19.  After [process_hostname] succeeded on the service, whatever the
    outcome (unchanged, updated or created), the zone of the hostname holds
    an ['A'] record with the derived name whose content is the target
    address, and it is the first such record. *)
Theorem success_means_record_is_current account h ip (s : service) :
  let run := process_hostname account h ip s in
  succeeded (value run) = true →
  ∃ records r,
    zones (final run) !! (account, zone_name (Py.split dot h)) = Some records ∧
    first_address_record (record_name (Py.split dot h)) records r ∧
    r_content r = ip.
Proof.
  intros run Hsuccess.
  assert (current account (zone_name (Py.split dot h))
            (record_name (Py.split dot h)) ip (final run)) as Hcurrent.
  { pose proof (process_hostname_service account h ip s) as Hcases.
    cbn zeta in Hcases. fold run in Hcases.
    destruct (value run) eqn:Hvalue.
    - by destruct Hcases as (-> & _ & _ & ?).
    - apply (process_hostname_makes_current account h ip s). by right.
    - apply (process_hostname_makes_current account h ip s). by left.
    - done. }
  destruct Hcurrent as (records & r & Hzone & Hfirst & Hcontent).
  exists records, r. split; [done |].
  split; [by apply existing_record_first | done].
Qed.

Lemma settled_quiet account ip h (s : service) :
  settled account ip h s →
  let run := process_hostname account h ip s in
  final run = s ∧ Forall listing_call (calls run) ∧
  value run ≠ Created ∧ value run ≠ Updated.
Proof.
  intros Hsettled.
  pose proof (process_hostname_on_service account h ip s) as Hrun.
  cbn zeta in *.
  destruct Hrun as [[_ ->] | (Hvalid & Hrun)]; [by repeat constructor |].
  destruct (zones s !! _) as [records|] eqn:Hzone;
    [| rewrite Hrun; by repeat constructor].
  destruct (existing_record _ records) as [r|] eqn:Hfirst.
  - destruct (bool_decide_reflect (r_content r = ip)) as [Hcontent | Hcontent];
      [rewrite Hrun; by repeat constructor |].
    destruct (validate_ip_address ip) eqn:Hip;
      [| rewrite Hrun; by repeat constructor].
    destruct Hsettled as [? | [? | [? | (records' & r' & Hz & Hf & Hc)]]];
      congruence.
  - destruct (validate_ip_address ip) eqn:Hip;
      [| rewrite Hrun; by repeat constructor].
    destruct Hsettled as [? | [? | [? | (records' & r' & Hz & Hf & Hc)]]];
      congruence.
Qed.

Lemma process_hostname_settles account ip h (s : service) :
  settled account ip h (final (process_hostname account h ip s)).
Proof.
  pose proof (process_hostname_on_service account h ip s) as Hrun.
  cbn zeta in Hrun. unfold settled.
  destruct Hrun as [[? _] | (Hvalid & Hrun)]; [by left |].
  destruct (zones s !! _) as [records|] eqn:Hzone.
  2: { rewrite Hrun. right; right; left. done. }
  destruct (validate_ip_address ip) eqn:Hip; [| right; by left].
  right; right; right.
  destruct (existing_record _ records) as [r|] eqn:Hfirst.
  - destruct (bool_decide_reflect (r_content r = ip)) as [Hcontent | Hcontent].
    + rewrite Hrun. by exists records, r.
    + destruct Hrun as (r' & Hrun & _).
      apply (process_hostname_makes_current account h ip s). right. by rewrite Hrun.
  - destruct Hrun as (r' & Hrun & _).
    apply (process_hostname_makes_current account h ip s). left. by rewrite Hrun.
Qed.

Lemma settled_kept account ip h h' (s : service) :
  settled account ip h s →
  settled account ip h (final (process_hostname account h' ip s)).
Proof.
  intros [? | [? | [Hzone | Hcurrent]]]; [by left | right; by left | |].
  - right; right; left.
    pose proof (process_hostname_kept account h' ip s
                  (account, zone_name (Py.split dot h))) as Hkept.
    rewrite Hzone in Hkept.
    by destruct (zones (final (process_hostname account h' ip s)) !! _).
  - right; right; right. by apply process_hostname_keeps_current.
Qed.

Lemma settled_kept_by_run account ip h hostnames : ∀ n (s : service),
  settled account ip h s →
  settled account ip h (final (process_hostnames account ip hostnames n s)).
Proof.
  induction hostnames as [|h' hostnames IH]; intros n s Hsettled; [done |].
  rewrite process_hostnames_cons. cbn [final fst snd]. apply IH.
  by apply settled_kept.
Qed.

Lemma run_settles account ip hostnames : ∀ n (s : service),
  Forall (λ h, settled account ip h
                 (final (process_hostnames account ip hostnames n s)))
    hostnames.
Proof.
  induction hostnames as [|h hostnames IH]; intros n s; [constructor |].
  rewrite process_hostnames_cons. cbn [final fst snd]. constructor; [| apply IH].
  apply settled_kept_by_run, process_hostname_settles.
Qed.

Lemma settled_run_is_quiet account ip hostnames : ∀ n (s : service),
  Forall (λ h, settled account ip h s) hostnames →
  let run := process_hostnames account ip hostnames n s in
  final run = s ∧ Forall listing_call (calls run) ∧
  Forall (λ r, r.1 ≠ Created ∧ r.1 ≠ Updated) (value run).2.
Proof.
  induction hostnames as [|h hostnames IH]; intros n s Hall; [by repeat constructor |].
  apply Forall_cons in Hall as [Hh Hall]. cbn zeta.
  rewrite process_hostnames_cons. cbn [value final calls fst snd].
  destruct (settled_quiet account ip h s Hh) as (Hfinal & Hcalls & Hc & Hu).
  cbn zeta in Hfinal. rewrite Hfinal.
  destruct (IH (if succeeded (value (process_hostname account h ip s))
                then Datatypes.S n else n) s Hall) as (IHfinal & IHcalls & IHreports).
  split; [done |]. split; [by apply Forall_app | by constructor].
Qed.

(** X20.  Running the loop a second time, with the same hostnames and the
    same address, on the service as the first run left it changes nothing:
    the service ends as it started, every call is a listing, and no hostname
    comes out created or updated.  This holds whatever happened in the first
    run, failures included. *)
Theorem second_run_changes_nothing account ip hostnames n m (s : service) :
  let first := process_hostnames account ip hostnames n s in
  let second := process_hostnames account ip hostnames m (final first) in
  final second = final first ∧
  Forall listing_call (calls second) ∧
  Forall (λ r, r.1 ≠ Created ∧ r.1 ≠ Updated) (value second).2.
Proof.
  cbn zeta. apply settled_run_is_quiet, run_settles.
Qed.

End ServiceRuns.

Lemma success_means_record_is_current_witness :
  ∃ records r,
    zones (final (process_hostname (H:=latin1_only) 1 (py "example.com")
                    (py "10.0.0.2") sample_service))
      !! (1, zone_name (Py.split dot (py "example.com"))) = Some records ∧
    first_address_record (record_name (Py.split dot (py "example.com")))
      records r ∧
    r_content r = py "10.0.0.2".
Proof.
  apply (success_means_record_is_current (H:=latin1_only) 1 (py "example.com")
           (py "10.0.0.2") sample_service).
  vm_compute; reflexivity.
Defined.

(** ** The zone of a valid hostname *)

Lemma split_leading_sep sep s :
  Py.startswith s [sep] = true → head (Py.split sep s) = Some [].
Proof.
  destruct s as [|c s]; [done |]. cbn [Py.startswith Py.split].
  destruct s; rewrite andb_true_r; intros ->%N.eqb_eq; by rewrite N.eqb_refl.
Qed.

Lemma split_doubled_sep sep a b :
  [] ∈ tail (Py.split sep (a ++ sep :: sep :: b)).
Proof.
  induction a as [|c a IH]; cbn [app Py.split].
  - rewrite !N.eqb_refl. cbn [tail]. apply elem_of_cons. by left.
  - pose proof (split_nonempty sep (a ++ sep :: sep :: b)) as Hne.
    destruct (Py.split sep (a ++ sep :: sep :: b)) as [|p ps]; [done |].
    cbn [tail] in IH. destruct (c =? sep); cbn [tail]; [| exact IH].
    apply elem_of_cons. by right.
Qed.

Lemma split_trailing_sep sep k :
  ∃ p pre, Py.split sep (k ++ [sep]) = (p :: pre) ++ [[]].
Proof.
  induction k as [|c k (p & pre & IH)]; cbn [app Py.split].
  - rewrite N.eqb_refl. by exists [], [].
  - rewrite IH. destruct (c =? sep); [by exists [], (p :: pre) |].
    by exists (c :: p), pre.
Qed.

Section ZoneOfHostname.
Context `{UnicodeData}.

Lemma validate_parts_nonempty parts i :
  validate_parts i parts = true → [] ∉ parts.
Proof.
  intros Hparts Hin. apply list_elem_of_lookup in Hin as [j Hj].
  by destruct (proj1 (validate_parts_spec parts i) Hparts j [] Hj) as [? _].
Qed.

(** When every part is checked by the loop, the checks for a leading, a
    trailing and a doubled dot have nothing left to reject. *)
Lemma dot_checks_follow h :
  validate_parts 0 (Py.split dot h) = true →
  Py.startswith h (py ".") = false ∧ Py.endswith h (py ".") = false ∧
  Py.contains (py "..") h = false.
Proof.
  intros Hparts. apply validate_parts_nonempty in Hparts.
  split; [| split]; apply not_true_is_false; intros Hcheck; apply Hparts.
  - apply (split_leading_sep dot) in Hcheck.
    destruct (Py.split dot h); [done |]. injection Hcheck as ->.
    apply elem_of_cons. by left.
  - apply endswith_suffix in Hcheck as [k ->].
    destruct (split_trailing_sep dot k) as (p & pre & Hsplit).
    change (py ".") with [dot]. rewrite Hsplit.
    apply elem_of_app. right. apply elem_of_cons. by left.
  - apply contains_infix in Hcheck as (a & b & ->).
    pose proof (split_doubled_sep dot a b) as Hin.
    change (py ".." ++ b) with (dot :: dot :: b).
    destruct (Py.split dot (a ++ dot :: dot :: b)); [done |].
    apply elem_of_cons. by right.
Qed.

(** X21.  The zone derived from a valid hostname is itself a valid
    hostname, and as a hostname it stands for the apex of that zone: its zone
    is itself and its record name is empty. *)
Theorem zone_of_valid_hostname_is_valid h :
  validate_hostname h = true →
  let zone := zone_name (Py.split dot h) in
  validate_hostname zone = true ∧
  zone_name (Py.split dot zone) = zone ∧
  record_name (Py.split dot zone) = [].
Proof.
  intros Hvalid zone.
  pose proof (hostname_of_zone_and_record_name h Hvalid) as Hround.
  cbn zeta in Hround. fold zone in Hround.
  assert (length zone ≤ length h)%nat as Hshorter.
  { pose proof (f_equal length Hround) as Hl.
    destruct (bool_decide _) in Hl; [by rewrite Hl |].
    rewrite Hl, !length_app. lia. }
  assert (length h ≤ 253)%nat as Hlen.
  { by apply validate_hostname_rules in Hvalid as (_ & ? & _). }
  destruct (validate_hostname_labels h Hvalid)
    as (leading & a & b & Hparts & _ & Hall).
  assert (zone = Py.join [dot] [a; b]) as Hzone.
  { unfold zone. by rewrite Hparts, zone_name_app. }
  assert (Py.split dot zone = [a; b]) as Hsplit.
  { rewrite Hzone. apply split_join; [done |].
    pose proof (split_sep_free dot h) as Hfree. rewrite Hparts in Hfree.
    by apply Forall_app in Hfree as [_ Hfree]. }
  assert (label_rules 0 a ∧ label_rules 1 b) as [Ha Hb].
  { split.
    - destruct (Hall (length leading) a) as (Hne & Hlen' & _ & Hreg).
      { by rewrite lookup_app_r, Nat.sub_diag by lia. }
      split; [done |]. split; [done |]. split; done.
    - destruct (label_rules_positive (length leading) b) as [_ Hb'];
        [| done].
      apply (Hall (Datatypes.S (length leading)) b).
      rewrite lookup_app_r by lia.
      by replace (Datatypes.S (length leading) - length leading)%nat
        with 1%nat by lia. }
  assert (validate_parts 0 (Py.split dot zone) = true) as Hvalid_parts.
  { rewrite Hsplit. apply validate_parts_spec.
    intros [|[|j]] label Hj; [by injection Hj as <- | by injection Hj as <- | done]. }
  split; [| split].
  - destruct (dot_checks_follow zone Hvalid_parts) as (Hstart & Hend & Hdots).
    unfold validate_hostname. rewrite Hstart, Hend, Hdots, Hsplit. cbn [orb].
    rewrite bool_decide_eq_false_2.
    + destruct (Nat.ltb_spec 253 (length zone)); [lia |]. cbn [orb length].
      rewrite <- Hsplit. exact Hvalid_parts.
    + rewrite Hzone. destruct Ha as [Hne _]. cbn. by destruct a.
  - rewrite Hsplit, Hzone. reflexivity.
  - by rewrite Hsplit.
Qed.

End ZoneOfHostname.

Lemma zone_of_valid_hostname_is_valid_witness :
  validate_hostname (H:=latin1_only)
    (zone_name (Py.split dot (py "*.sub.example.com"))) = true ∧
  zone_name (Py.split dot (zone_name (Py.split dot (py "*.sub.example.com"))))
    = zone_name (Py.split dot (py "*.sub.example.com")) ∧
  record_name (Py.split dot (zone_name (Py.split dot (py "*.sub.example.com"))))
    = [].
Proof.
  apply (zone_of_valid_hostname_is_valid (H:=latin1_only) (py "*.sub.example.com")).
  vm_compute; reflexivity.
Defined.
